(** * E-Chat: a Streamlit retrieval-augmented chat script (src/app.py)

    The program is one Python script that the UI framework executes from
    top to bottom on every interaction.  This development embeds one such
    execution as a function from the state that survives between
    executions (secrets, process environment, files, session state, the
    resource cache) to the list of externally visible calls it makes, the
    state it leaves behind and the way it ends.

    External libraries (the UI framework, the embedding model, the text
    splitter, the vector store, the hosted language model) are not part of
    the repository: their answers are taken from an [Externals] instance,
    and every call that reaches them is recorded as an [Event]. *)

From Stdlib Require Import Ascii String List NArith ZArith QArith_base Lia.
From stdpp Require Import gmap strings list fin_maps.

Local Open Scope string_scope.
Local Open Scope list_scope.

(** ** Python strings

    A Python [str] is a sequence of Unicode code points; slicing and
    [strip] count code points, not bytes. *)

Module PyStr.

Definition codepoint := N.
Definition pystr := list codepoint.

(** An ASCII literal of the source, as a [str]. *)
Definition py (s : string) : pystr :=
  map N_of_ascii (list_ascii_of_string s).

Definition nl : pystr := [10%N].

(** [str.isspace] on one code point (CPython's [_PyUnicode_IsWhitespace]). *)
Definition py_isspace (c : codepoint) : bool :=
  ((9 <=? c) && (c <=? 13) || (28 <=? c) && (c <=? 32)
   || (c =? 133) || (c =? 160) || (c =? 5760)
   || (8192 <=? c) && (c <=? 8202)
   || (c =? 8232) || (c =? 8233) || (c =? 8239)
   || (c =? 8287) || (c =? 12288))%N.

Fixpoint lstrip (s : pystr) : pystr :=
  match s with
  | [] => []
  | c :: s' => if py_isspace c then lstrip s' else s
  end.

Definition rstrip (s : pystr) : pystr := rev (lstrip (rev s)).

(** [s.strip()] *)
Definition strip (s : pystr) : pystr := rstrip (lstrip s).

(** [s[:n]] for a non-negative literal [n] *)
Definition slice_to (n : nat) (s : pystr) : pystr := take n s.

(** Truthiness of an optional string: [None] and [""] are false. *)
Definition truthy (o : option pystr) : bool :=
  match o with
  | Some (_ :: _) => true
  | _ => false
  end.

End PyStr.
Export PyStr.

(** ** Exceptions *)

(** A raised Python exception: its class, whether that class derives from
    [Exception] (as opposed to deriving from [BaseException] only, like
    [KeyboardInterrupt] or the UI framework's script-control exceptions),
    and its message. *)
Record pyexc := PyExc {
  exc_class : string;
  exc_is_Exception : bool;
  exc_msg : pystr
}.

Inductive outcome (A : Type) :=
| Ok (a : A)
| Raised (e : pyexc).
Arguments Ok {A} a.
Arguments Raised {A} e.

Definition FileNotFoundError (path : string) : pyexc :=
  PyExc "FileNotFoundError" true (py path).
Definition KeyError (key : string) : pyexc :=
  PyExc "KeyError" true (py key).
Definition AttributeError (name : string) : pyexc :=
  PyExc "AttributeError" true (py name).
Definition ValueError (msg : string) : pyexc :=
  PyExc "ValueError" true (py msg).
Definition TypeError (msg : string) : pyexc :=
  PyExc "TypeError" true (py msg).
Definition IndexError (msg : string) : pyexc :=
  PyExc "IndexError" true (py msg).
Definition UnicodeEncodeError (msg : string) : pyexc :=
  PyExc "UnicodeEncodeError" true (py msg).
(** [st.stop()] ends the script by raising the framework's [StopException],
    a script-control exception outside the [Exception] hierarchy. *)
Definition StopException : pyexc :=
  PyExc "StopException" false [].

(** ** Library objects the script builds and passes around *)

Definition Vector := list Q.

Record Document := {
  page_content : pystr;
  metadata : gmap string pystr
}.

Record Embeddings := { model_name : pystr }.

Record TextSplitter := { chunk_size : nat; chunk_overlap : nat }.

Record FAISS := {
  embedding_function : Embeddings;
  index : list (Vector * Document)
}.

Record Retriever := {
  vectorstore : FAISS;
  search_type : string;
  search_k : nat;
  search_fetch_k : nat
}.

Record LLM := {
  llm_model : string;
  temperature : Q;
  convert_system_message_to_human : bool;
  google_api_key : option pystr
}.

Inductive Message :=
| HumanMessage (content : pystr)
| AIMessage (content : pystr).

Record Memory := {
  memory_llm : LLM;
  memory_key : string;
  return_messages : bool;
  memory_output_key : string;
  chat_memory : list Message;
  moving_summary_buffer : pystr
}.

Record PromptTemplate := {
  input_variables : list string;
  template : pystr
}.

Record Chain := {
  chain_llm : LLM;
  chain_retriever : Retriever;
  chain_memory : Memory;
  return_source_documents : bool;
  combine_docs_prompt : PromptTemplate;
  chain_output_key : string;
  verbose : bool
}.

(** The dictionary a chain call returns, at the two keys the script reads. *)
Record ChainResult := {
  res_answer : option pystr;
  res_source_documents : option (list Document)
}.

(** ** Calls that leave the script *)

(** Where a drawing call puts its output: the page, or the block opened by
    an enclosing [with]. *)
Inductive container :=
| Page
| ChatMessage (name avatar : pystr)
| Spinner (text : pystr)
| Expander (label : pystr) (expanded : bool).

Inductive UICall :=
| set_page_config (page_title page_icon : pystr) (layout : string)
| st_error (body : pystr)
| st_stop
| st_title (body : pystr)
| st_markdown (parent : container) (body : pystr)
| st_code (parent : container) (body : pystr) (language : string)
| st_chat_input (placeholder : pystr)
| st_chat_message (name avatar : pystr)
| st_spinner (text : pystr)
| st_expander (label : pystr) (expanded : bool)
| st_exception (e : pyexc).

Inductive LibCall :=
| NewEmbeddings (name : pystr)
| SplitText (splitter : TextSplitter) (text : pystr)
| EmbedDocuments (emb : Embeddings) (texts : list pystr)
| BuildIndex (db : FAISS)
| NewLLM (llm : LLM)
| InvokeChain (chain : Chain) (question : pystr).

Inductive Event :=
| UI (c : UICall)
| SetEnviron (key : string) (value : pystr)
| OpenRead (path : string)
| Lib (c : LibCall).

(** What the external world answers.  Every call into the UI framework may
    raise; so may loading the embedding model, embedding texts, building
    the language-model client and running the chain.  An answer depends on
    the call and its arguments only. *)
Class Externals := {
  (** the exception a call into the UI framework raises, if any *)
  ui_fault : UICall -> option pyexc;
  (** the exception [HuggingFaceEmbeddings(model_name=...)] raises, if any *)
  embeddings_fault : pystr -> option pyexc;
  (** [splitter.split_text(text)] *)
  split_text : TextSplitter -> pystr -> list pystr;
  (** [embedding.embed_documents(texts)] *)
  embed_documents : Embeddings -> list pystr -> outcome (list Vector);
  (** the exception [ChatGoogleGenerativeAI(...)] raises, if any *)
  llm_fault : LLM -> option pyexc;
  (** [chain({"question": q})]: retrieval and the calls to the hosted model *)
  invoke_chain : Chain -> pystr -> outcome ChainResult
}.

(** ** State that survives from one execution of the script to the next *)

(** The chat history: the turns so far, each a question and its answer. *)
Abbreviation History := (list (pystr * pystr)) (only parsing).

(** A top-level entry of the secrets: a string; an integer or a float,
    with the text [str] gives for it; or anything else (a boolean, a date,
    an array, a table).  [type_name] is the name of the type of the value
    [st.secrets[k]] returns for it. *)
Inductive secret :=
| secret_str (value : pystr)
| secret_number (type_name : string) (text : pystr)
| secret_other (type_name : string).

(** The secrets of the UI framework.  They are read from the secrets files
    when [st.secrets] is first used in the process, and kept from then on.
    Reading them fails when there is no secrets file or a file is not valid
    TOML.  The entries are the top-level keys, in the order of the files. *)
Inductive secrets_source :=
| secrets_unreadable (e : pyexc)
| secrets_on_disk (entries : list (string * secret))
| secrets_parsed (entries : list (string * secret)).

Definition secret_entries (src : secrets_source) : list (string * secret) :=
  match src with
  | secrets_unreadable _ => []
  | secrets_on_disk entries => entries
  | secrets_parsed entries => entries
  end.

(** The dictionary of the entries: a later entry of a key replaces an
    earlier one. *)
Definition toml_dict (entries : list (string * secret)) : gmap string secret :=
  list_to_map (reverse entries).

Definition string_secret (v : secret) : option pystr :=
  match v with
  | secret_str t => Some t
  | _ => None
  end.

(** What the UI framework writes to the environment for a secret when it
    parses the secrets: the strings and the numbers, as text. *)
Definition exported (v : secret) : option pystr :=
  match v with
  | secret_str t => Some t
  | secret_number _ t => Some t
  | secret_other _ => None
  end.

Record Store := {
  (** the secrets files behind [st.secrets] *)
  secrets_file : secrets_source;
  (** [os.environ] *)
  environ : gmap string pystr;
  (** the text files on disk, by path *)
  files : gmap string pystr;
  (** [st.session_state] *)
  session_state : gmap string History;
  (** what [st.cache_resource] holds for [load_vector_store] *)
  resource_cache : option Retriever
}.

(** [st.secrets], at the keys that hold a string. *)
Definition secrets (s : Store) : gmap string pystr :=
  omap string_secret (toml_dict (secret_entries (secrets_file s))).

Definition set_secrets_store (src : secrets_source) (s : Store) : Store :=
  {| secrets_file := src; environ := environ s;
     files := files s; session_state := session_state s;
     resource_cache := resource_cache s |}.

Definition set_environ_store (k : string) (v : pystr) (s : Store) : Store :=
  {| secrets_file := secrets_file s; environ := <[k := v]> (environ s);
     files := files s; session_state := session_state s;
     resource_cache := resource_cache s |}.

Definition set_session_store (k : string) (h : History) (s : Store) : Store :=
  {| secrets_file := secrets_file s; environ := environ s;
     files := files s; session_state := <[k := h]> (session_state s);
     resource_cache := resource_cache s |}.

Definition set_cache_store (r : Retriever) (s : Store) : Store :=
  {| secrets_file := secrets_file s; environ := environ s;
     files := files s; session_state := session_state s;
     resource_cache := Some r |}.

(** The exception [os.environ[k] = v] raises for a string [v], if any
    (POSIX): the value is encoded first, then [putenv] refuses a null byte
    in the name or the value, and an empty name or one with an equals
    sign. *)
Definition is_lone_surrogate (c : codepoint) : bool :=
  ((0xD800 <=? c) && (c <=? 0xDFFF) && negb ((0xDC80 <=? c) && (c <=? 0xDCFF)))%N.

Definition name_has (a : ascii) (k : string) : bool :=
  existsb (Ascii.eqb a) (list_ascii_of_string k).

Definition putenv_fault (k : string) (v : pystr) : option pyexc :=
  if existsb is_lone_surrogate v
  then Some (UnicodeEncodeError "surrogates not allowed")
  else if name_has zero k || existsb (N.eqb 0) v
  then Some (ValueError "embedded null byte")
  else if bool_decide (k = "") || name_has "=" k
  then Some (ValueError "illegal environment variable name")
  else None.

(** ** The script monad: state, emitted events, exceptions *)

(** What a computation does from a store: the calls it makes, in order, the
    store it leaves, and its value or the exception that ends it. *)

Record Step (A : Type) := mkStep {
  emitted : list Event;
  store_after : Store;
  result : outcome A
}.
Arguments mkStep {A} _ _ _.
Arguments emitted {A} _.
Arguments store_after {A} _.
Arguments result {A} _.

Definition M (A : Type) := Store -> Step A.

Definition ret {A} (a : A) : M A := fun s => mkStep [] s (Ok a).

Definition raise {A} (e : pyexc) : M A := fun s => mkStep [] s (Raised e).

Definition bind {A B} (m : M A) (f : A -> M B) : M B := fun s =>
  match m s with
  | mkStep ev s1 (Ok a) =>
      match f a s1 with
      | mkStep ev2 s2 r => mkStep (ev ++ ev2) s2 r
      end
  | mkStep ev s1 (Raised e) => mkStep ev s1 (Raised e)
  end.

Declare Scope script_scope.
Delimit Scope script_scope with script.
Notation "x <- c1 ;; c2" := (bind c1 (fun x => c2))
  (at level 100, c1 at next level, right associativity) : script_scope.
Notation "c1 ;; c2" := (bind c1 (fun _ => c2))
  (at level 100, right associativity) : script_scope.
Local Open Scope script_scope.

Definition emit (e : Event) : M unit := fun s => mkStep [e] s (Ok tt).

Definition get_store : M Store := fun s => mkStep [] s (Ok s).

Definition modify (f : Store -> Store) : M unit := fun s => mkStep [] (f s) (Ok tt).

(** [try: body except Exception as e: handler(e)]: only exceptions whose
    class derives from [Exception] are caught. *)
Definition try_except (body : M unit) (handler : pyexc -> M unit) : M unit :=
  fun s =>
    match body s with
    | mkStep ev s1 (Ok a) => mkStep ev s1 (Ok a)
    | mkStep ev s1 (Raised e) =>
        if exc_is_Exception e
        then match handler e s1 with
             | mkStep ev2 s2 r => mkStep (ev ++ ev2) s2 r
             end
        else mkStep ev s1 (Raised e)
    end.

(** [for x in l: body(x)] *)
Fixpoint for_each {A} (l : list A) (body : A -> M unit) : M unit :=
  match l with
  | [] => ret tt
  | x :: l' => body x ;; for_each l' body
  end.

(** ** The script (src/app.py) *)

Module App.
Section Script.

Context {ext : Externals}.

(** *** Primitive calls *)

(** A call into the UI framework: recorded, then it returns or raises. *)
Definition ui (c : UICall) : M unit := fun s =>
  mkStep [UI c] s
    match ui_fault c with
    | Some e => Raised e
    | None => Ok tt
    end.

(** [st.stop()] never returns. *)
Definition stop : M unit :=
  emit (UI st_stop) ;; raise StopException.

Definition lift_outcome {A} (o : outcome A) : M A :=
  match o with
  | Ok a => ret a
  | Raised e => raise e
  end.

Definition lift_fault (o : option pyexc) : M unit :=
  match o with
  | Some e => raise e
  | None => ret tt
  end.

(** [with open(path, "r", encoding="utf-8") as f: f.read()] *)
Definition open_read (path : string) : M pystr :=
  emit (OpenRead path) ;;
  s <- get_store ;;
  match files s !! path with
  | Some text => ret text
  | None => raise (FileNotFoundError path)
  end.

(** [os.environ[k] = v] for a string [v]: it raises, or the variable is
    set. *)
Definition set_environ (k : string) (v : pystr) : M unit :=
  lift_fault (putenv_fault k v) ;;
  emit (SetEnviron k v) ;;
  modify (set_environ_store k v).

(** [os.environ[k] = value]: only a string is accepted. *)
Definition environ_setitem (k : string) (value : secret) : M unit :=
  match value with
  | secret_str v => set_environ k v
  | secret_number type_name _ => raise (TypeError ("str expected, not " ++ type_name))
  | secret_other type_name => raise (TypeError ("str expected, not " ++ type_name))
  end.

(** *** The secrets of the UI framework *)

(** When the secrets are parsed, every top-level string or number is
    written to the environment under its key. *)
Definition export_secret (entry : string * secret) : M unit :=
  match exported (snd entry) with
  | Some text => set_environ (fst entry) text
  | None => ret tt
  end.

(** Any use of [st.secrets]: the secrets parsed earlier in the process, or
    else the secrets files are read and parsed now, and the entries are
    exported, in order.  Unless all of this succeeds, nothing is kept and
    the next use starts again. *)
Definition load_secrets : M (gmap string secret) :=
  s <- get_store ;;
  match secrets_file s with
  | secrets_unreadable e => raise e
  | secrets_parsed entries => ret (toml_dict entries)
  | secrets_on_disk entries =>
      for_each entries export_secret ;;
      modify (set_secrets_store (secrets_parsed entries)) ;;
      ret (toml_dict entries)
  end.

(** [k in st.secrets] *)
Definition secrets_contains (k : string) : M bool :=
  parsed <- load_secrets ;;
  ret match parsed !! k with
      | Some _ => true
      | None => false
      end.

(** [st.secrets[k]] *)
Definition secrets_getitem (k : string) : M secret :=
  parsed <- load_secrets ;;
  match parsed !! k with
  | Some value => ret value
  | None => raise (KeyError k)
  end.

(** *** Library calls *)

Definition HuggingFaceEmbeddings (name : pystr) : M Embeddings :=
  emit (Lib (NewEmbeddings name)) ;;
  lift_fault (embeddings_fault name) ;;
  ret {| model_name := name |}.

Definition RecursiveCharacterTextSplitter (size overlap : nat) : TextSplitter :=
  {| chunk_size := size; chunk_overlap := overlap |}.

Definition splitter_split_text (sp : TextSplitter) (text : pystr) : M (list pystr) :=
  emit (Lib (SplitText sp text)) ;;
  ret (split_text sp text).

(** [Document(page_content=chunk)]: the metadata defaults to an empty dict. *)
Definition new_Document (chunk : pystr) : Document :=
  {| page_content := chunk; metadata := ∅ |}.

(** What keeps [FAISS.from_documents] from building an index over the
    vectors it got for the documents: the dimension of the index is the
    length of the first vector, so there must be one; there must be one
    vector for each document; and the vectors must form a matrix. *)
Definition index_fault (vectors : list Vector) (docs : list Document) : option pyexc :=
  match vectors with
  | [] => Some (IndexError "list index out of range")
  | first :: _ =>
      if negb (length vectors =? length docs)%nat
      then Some (ValueError "documents and embeddings should be the same length")
      else if negb (forallb (fun v => length v =? length first)%nat vectors)
      then Some (ValueError "inhomogeneous shape")
      else None
  end.

(** [FAISS.from_documents(docs, embedding)]: embeds the texts of the
    documents, then builds the in-memory index over the vectors. *)
Definition FAISS_from_documents (docs : list Document) (emb : Embeddings) : M FAISS :=
  let texts := map page_content docs in
  emit (Lib (EmbedDocuments emb texts)) ;;
  vectors <- lift_outcome (embed_documents emb texts) ;;
  lift_fault (index_fault vectors docs) ;;
  let db := {| embedding_function := emb; index := zip vectors docs |} in
  emit (Lib (BuildIndex db)) ;;
  ret db.

Definition as_retriever (db : FAISS) (st : string) (k fetch_k : nat) : Retriever :=
  {| vectorstore := db; search_type := st; search_k := k; search_fetch_k := fetch_k |}.

(** [ChatGoogleGenerativeAI(...)]: the client takes its key from the
    process environment. *)
Definition ChatGoogleGenerativeAI (model : string) (temp : Q) (convert : bool) : M LLM :=
  s <- get_store ;;
  let llm := {| llm_model := model; temperature := temp;
                convert_system_message_to_human := convert;
                google_api_key := environ s !! "GOOGLE_API_KEY" |} in
  emit (Lib (NewLLM llm)) ;;
  lift_fault (llm_fault llm) ;;
  ret llm.

(** [ConversationSummaryBufferMemory(...)]: a new memory holds no message
    and an empty running summary. *)
Definition ConversationSummaryBufferMemory
    (llm : LLM) (key : string) (msgs : bool) (out : string) : Memory :=
  {| memory_llm := llm; memory_key := key; return_messages := msgs;
     memory_output_key := out; chat_memory := [];
     moving_summary_buffer := [] |}.

Definition ConversationalRetrievalChain_from_llm
    (llm : LLM) (retriever : Retriever) (memory : Memory)
    (src_docs : bool) (prompt : PromptTemplate) (out : string) (vb : bool) : Chain :=
  {| chain_llm := llm; chain_retriever := retriever; chain_memory := memory;
     return_source_documents := src_docs; combine_docs_prompt := prompt;
     chain_output_key := out; verbose := vb |}.

(** [qa_chain({"question": q})] *)
Definition call_chain (chain : Chain) (q : pystr) : M ChainResult :=
  emit (Lib (InvokeChain chain q)) ;;
  lift_outcome (invoke_chain chain q).

(** *** Literals of the source *)

Definition robot : pystr := [0x1F916%N].
Definition person : pystr := [0x1F9D1%N].

(** A triple-quoted literal that starts on the line after the quotes. *)
Definition triple_quoted (lines : list pystr) : pystr :=
  nl ++ concat (map (fun l => l ++ nl) lines).

Definition page_title : pystr := py "GitLab GenAI Chatbot".
Definition api_key_missing_msg : pystr :=
  py "Google API Key not found. Please add it to Streamlit secrets.".
Definition handbook_path : string := "data/handbook_cleaned_FULL.txt".
Definition building_msg : pystr := py "Building vector DB...".
Definition title_text : pystr :=
  robot ++ py " GitLab Handbook & Direction AI Chatbot".
Definition welcome_text : pystr :=
  triple_quoted
    [ py "Welcome! This GenAI assistant helps GitLab team members and future employees learn about:";
      py "- " ++ [0x1F4D8%N] ++ py " GitLab's Handbook (culture, engineering, async, etc.)";
      py "- " ++ [0x1F9ED%N] ++ py " GitLab's Product Direction (strategy, themes, FY25+)";
      [];
      py "Just ask your question below and the chatbot will find answers from official GitLab docs." ].
Definition chat_placeholder : pystr :=
  py "Ask me anything about GitLab... " ++ [0x2728%N].
Definition thinking_msg : pystr :=
  robot ++ py " Thinking... generating response...".
Definition sources_label : pystr :=
  [0x1F4DA%N] ++ py " Sources & Reasoning".
Definition generic_error_msg : pystr :=
  [0x26A0%N; 0xFE0F%N] ++ py " Something went wrong while generating the answer.".

Definition prompt : PromptTemplate :=
  {| input_variables := ["context"; "question"];
     template :=
       triple_quoted
         [ py "You are an expert assistant trained on GitLab's official Handbook and Direction documents.";
           [];
           py "Please:";
           py "- Answer with as much useful detail as possible.";
           py "- Use bullet points or formatting if appropriate.";
           py "- Cite the source section when available.";
           py "- Only answer from GitLab materials. Politely decline anything off-topic.";
           [];
           py "Context:";
           py "{context}";
           [];
           py "Question:";
           py "{question}" ] |}.

(** *** API key setup (lines 20-24) *)

Definition api_key_setup : M unit :=
  present <- secrets_contains "GOOGLE_API_KEY" ;;
  if present : bool
  then value <- secrets_getitem "GOOGLE_API_KEY" ;;
       environ_setitem "GOOGLE_API_KEY" value
  else ui (st_error api_key_missing_msg) ;; stop.

(** *** Vector store (lines 29-48) *)

Definition load_vector_store_body : M Retriever :=
  embedding <- HuggingFaceEmbeddings (py "all-MiniLM-L6-v2") ;;
  raw_text <- open_read handbook_path ;;
  let splitter := RecursiveCharacterTextSplitter 500 60 in
  chunks <- splitter_split_text splitter raw_text ;;
  let docs := map new_Document chunks in
  vectordb <- FAISS_from_documents docs embedding ;;
  ret (as_retriever vectordb "mmr" 8 18).

(** [@st.cache_resource(show_spinner=...)]: the body runs only when no
    value is cached; its value is cached when it returns. *)
Definition cache_resource (spinner : pystr) (body : M Retriever) : M Retriever :=
  s <- get_store ;;
  match resource_cache s with
  | Some r => ret r
  | None =>
      ui (st_spinner spinner) ;;
      r <- body ;;
      modify (set_cache_store r) ;;
      ret r
  end.

Definition load_vector_store : M Retriever :=
  cache_resource building_msg load_vector_store_body.

(** *** Model, memory and chain (lines 53-100) *)

Definition build_chain (retriever : Retriever) : M Chain :=
  gemini_llm <- ChatGoogleGenerativeAI "gemini-1.5-flash" (3 # 10) true ;;
  let memory :=
    ConversationSummaryBufferMemory gemini_llm "chat_history" true "answer" in
  ret (ConversationalRetrievalChain_from_llm
         gemini_llm retriever memory true prompt "answer" false).

(** *** Page header and session state (lines 105-116) *)

Definition page_header : M unit :=
  ui (st_title title_text) ;;
  ui (st_markdown Page welcome_text).

Definition init_chat_history : M unit :=
  s <- get_store ;;
  match session_state s !! "chat_history" with
  | Some _ => ret tt
  | None => modify (set_session_store "chat_history" [])
  end.

(** [st.session_state.chat_history] *)
Definition get_chat_history : M History :=
  s <- get_store ;;
  match session_state s !! "chat_history" with
  | Some h => ret h
  | None => raise (AttributeError "chat_history")
  end.

(** *** Replay of past messages (lines 121-125) *)

Definition chat_message (name avatar body : pystr) : M unit :=
  ui (st_chat_message name avatar) ;;
  ui (st_markdown (ChatMessage name avatar) body).

Definition replay_turn (turn : pystr * pystr) : M unit :=
  let '(user_msg, bot_msg) := turn in
  chat_message (py "user") person user_msg ;;
  chat_message (py "assistant") robot bot_msg.

Definition replay_history : M unit :=
  h <- get_chat_history ;;
  for_each h replay_turn.

(** *** A new query (lines 128-150) *)

(** [meta.get(key, default)] *)
Definition meta_get (meta : gmap string pystr) (key : string) (dflt : pystr) : pystr :=
  default dflt (meta !! key).

(** The f-string of line 143. *)
Definition source_heading (meta : gmap string pystr) : pystr :=
  py "**" ++ meta_get meta "source" (py "Unknown") ++ py " " ++ [0x2192%N]
    ++ py "** `" ++ meta_get meta "section" (py "N/A") ++ py "`".

(** [doc.page_content.strip()[:700] + "..."] *)
Definition source_excerpt (doc : Document) : pystr :=
  slice_to 700 (strip (page_content doc)) ++ py "...".

Definition show_source (doc : Document) : M unit :=
  let meta := metadata doc in
  ui (st_markdown (Expander sources_label false) (source_heading meta)) ;;
  ui (st_code (Expander sources_label false) (source_excerpt doc) "markdown").

(** [result["answer"]] *)
Definition result_answer (r : ChainResult) : M pystr :=
  match res_answer r with
  | Some a => ret a
  | None => raise (KeyError "answer")
  end.

(** [result.get("source_documents", [])] *)
Definition result_sources (r : ChainResult) : list Document :=
  default [] (res_source_documents r).

Definition append_chat_history (turn : pystr * pystr) : M unit :=
  h <- get_chat_history ;;
  modify (set_session_store "chat_history" (h ++ [turn])).

(** The body of the [try] (lines 133-146). *)
Definition answer_query (qa_chain : Chain) (user_query : pystr) : M unit :=
  ui (st_spinner thinking_msg) ;;
  result <- call_chain qa_chain user_query ;;
  response <- result_answer result ;;
  chat_message (py "assistant") robot response ;;
  ui (st_expander sources_label false) ;;
  for_each (result_sources result) show_source ;;
  append_chat_history (user_query, response).

(** The [except Exception as e] branch (lines 148-150). *)
Definition report_failure (e : pyexc) : M unit :=
  ui (st_error generic_error_msg) ;;
  ui (st_exception e).

(** The [try] statement (lines 132-150). *)
Definition guarded_answer (qa_chain : Chain) (user_query : pystr) : M unit :=
  try_except (answer_query qa_chain user_query) report_failure.

Definition handle_query (qa_chain : Chain) (user_query : pystr) : M unit :=
  chat_message (py "user") person user_query ;;
  guarded_answer qa_chain user_query.

(** *** The whole script *)

(** Lines 105-150, once the chain is built. *)
Definition conversation (qa_chain : Chain) (user_query : option pystr) : M unit :=
  replay_history ;;
  if truthy user_query
  then handle_query qa_chain (default [] user_query)
  else ret tt.

Definition chat_page (qa_chain : Chain) (submitted : option pystr) : M unit :=
  page_header ;;
  init_chat_history ;;
  ui (st_chat_input chat_placeholder) ;;
  let user_query := submitted in
  conversation qa_chain user_query.

(** One execution of the script; [submitted] is what [st.chat_input]
    returns in this execution. *)
Definition script (submitted : option pystr) : M unit :=
  ui (set_page_config page_title robot "wide") ;;
  api_key_setup ;;
  retriever <- load_vector_store ;;
  qa_chain <- build_chain retriever ;;
  chat_page qa_chain submitted.

End Script.
End App.
Export App.

(** ** A small concrete world, used to run the script *)

Module Demo.

(** Chunks of at most [chunk_size] code points, without overlap. *)
Fixpoint chunks_of (fuel size : nat) (text : pystr) : list pystr :=
  match fuel, text with
  | O, _ => []
  | _, [] => []
  | S fuel', _ => take size text :: chunks_of fuel' size (drop size text)
  end.

Definition answer_of (chain : Chain) (q : pystr) : pystr :=
  py "About " ++ q.

Definition sources_of (chain : Chain) : list Document :=
  map snd (take (search_k (chain_retriever chain))
             (index (vectorstore (chain_retriever chain)))).

(** Every call succeeds; the chain answers from the index it was given. *)
Definition healthy : Externals :=
  {| ui_fault := fun _ => None;
     embeddings_fault := fun _ => None;
     split_text := fun sp text => chunks_of (length text) (chunk_size sp) text;
     embed_documents := fun _ texts => Ok (map (fun t => [inject_Z (Z.of_nat (length t))]) texts);
     llm_fault := fun _ => None;
     invoke_chain := fun chain q =>
       Ok {| res_answer := Some (answer_of chain q);
             res_source_documents := Some (sources_of chain) |} |}.

Definition TimeoutError : pyexc := PyExc "TimeoutError" true (py "deadline exceeded").

(** The hosted model times out. *)
Definition llm_down : Externals :=
  {| ui_fault := fun _ => None;
     embeddings_fault := fun _ => None;
     split_text := fun sp text => chunks_of (length text) (chunk_size sp) text;
     embed_documents := fun _ texts => Ok (map (fun t => [inject_Z (Z.of_nat (length t))]) texts);
     llm_fault := fun _ => None;
     invoke_chain := fun _ _ => Raised TimeoutError |}.


Definition handbook : pystr := py "  GitLab is all remote.  ".

(** A new process: the secrets file holds the key and nothing else. *)
Definition fresh : Store :=
  {| secrets_file := secrets_on_disk [("GOOGLE_API_KEY", secret_str (py "k-123"))];
     environ := ∅;
     files := {[ handbook_path := handbook ]};
     session_state := ∅;
     resource_cache := None |}.


Definition no_file : Store :=
  {| secrets_file := secrets_on_disk [("GOOGLE_API_KEY", secret_str (py "k-123"))];
     environ := ∅; files := ∅;
     session_state := ∅; resource_cache := None |}.



(** The secrets file holds the key and three other entries. *)
Definition more_secrets : Store :=
  {| secrets_file :=
       secrets_on_disk
         [ ("OTHER_SECRET", secret_str (py "other"));
           ("PORT", secret_number "int" (py "8501"));
           ("GOOGLE_API_KEY", secret_str (py "k-123"));
           ("database", secret_other "AttrDict") ];
     environ := ∅;
     files := {[ handbook_path := handbook ]};
     session_state := ∅;
     resource_cache := None |}.



Definition question1 : pystr := py "What is GitLab?".
Definition question2 : pystr := py "And why?".

(** A session: the page is opened, then two questions are asked. *)
Definition visit : Step unit := @script healthy None fresh.
Definition first_turn : Step unit :=
  @script healthy (Some question1) (store_after visit).
Definition second_turn : Step unit :=
  @script healthy (Some question2) (store_after first_turn).

(** The store of a session in which the page has been opened. *)
Definition opened : Store := store_after visit.

(** The chain as the script builds it in the demo world. *)
Definition demo_chain : Chain :=
  let llm := {| llm_model := "gemini-1.5-flash"; temperature := 3 # 10;
                convert_system_message_to_human := true;
                google_api_key := Some (py "k-123") |} in
  {| chain_llm := llm;
     chain_retriever :=
       {| vectorstore := {| embedding_function := {| model_name := py "all-MiniLM-L6-v2" |};
                            index := [] |};
          search_type := "mmr"; search_k := 8; search_fetch_k := 18 |};
     chain_memory :=
       {| memory_llm := llm; memory_key := "chat_history";
          return_messages := true; memory_output_key := "answer";
          chat_memory := []; moving_summary_buffer := [] |};
     return_source_documents := true;
     combine_docs_prompt := prompt;
     chain_output_key := "answer";
     verbose := false |}.

End Demo.


(** ** Properties kept by every step of a script *)

(** A transition property relates the store before, the events emitted and
    the store after.  It is an [Invariant] when it holds of doing nothing
    and of doing one thing after another; it then holds of a whole script as
    soon as it holds of each primitive call. *)
Definition Transition := Store -> list Event -> Store -> Prop.

Class Invariant (P : Transition) := {
  inv_nil : forall s, P s [] s;
  inv_app : forall s1 e1 s2 e2 s3, P s1 e1 s2 -> P s2 e2 s3 -> P s1 (e1 ++ e2) s3
}.

Definition keeps_at {A} (P : Transition) (m : M A) (s : Store) : Prop :=
  P s (emitted (m s)) (store_after (m s)).

Definition keeps {A} (P : Transition) (m : M A) : Prop :=
  forall s, keeps_at P m s.

(** ** What a run can emit and change *)

Section Interface.

Context {ext : Externals}.

Definition sources_expander : container := Expander sources_label false.

(** A memory that holds nothing, as [ConversationSummaryBufferMemory(...)]
    returns it. *)
Definition empty_memory (m : Memory) : Prop :=
  chat_memory m = [] /\ moving_summary_buffer m = [].

(** The script up to and including the chat input (lines 4-118); it hands
    the chain to the rest. *)
Definition startup : M Chain :=
  ui (set_page_config page_title robot "wide") ;;
  api_key_setup ;;
  retriever <- load_vector_store ;;
  qa_chain <- build_chain retriever ;;
  page_header ;;
  init_chat_history ;;
  ui (st_chat_input chat_placeholder) ;;
  ret qa_chain.

(** The start of the script, up to and including the API key guard
    (lines 4-24). *)
Definition guard : M unit :=
  ui (set_page_config page_title robot "wide") ;;
  api_key_setup.

(** From the vector store to the chat input (lines 29-118). *)
Definition startup_rest : M Chain :=
  retriever <- load_vector_store ;;
  qa_chain <- build_chain retriever ;;
  page_header ;;
  init_chat_history ;;
  ui (st_chat_input chat_placeholder) ;;
  ret qa_chain.

(** The calls the script can make up to the chat input, with the arguments
    it can pass, and the environment variables that can be set; [entries]
    are the entries of the secrets of the run. *)
Inductive startup_event (entries : list (string * secret)) : Event -> Prop :=
| ev_page_config :
    startup_event entries (UI (set_page_config page_title robot "wide"))
| ev_key_missing :
    toml_dict entries !! "GOOGLE_API_KEY" = None ->
    startup_event entries (UI (st_error api_key_missing_msg))
| ev_stop :
    toml_dict entries !! "GOOGLE_API_KEY" = None ->
    startup_event entries (UI st_stop)
| ev_set_environ k value text :
    In (k, value) entries ->
    exported value = Some text ->
    startup_event entries (SetEnviron k text)
| ev_building :
    startup_event entries (UI (st_spinner building_msg))
| ev_new_embeddings :
    startup_event entries (Lib (NewEmbeddings (py "all-MiniLM-L6-v2")))
| ev_open_read :
    startup_event entries (OpenRead handbook_path)
| ev_split_text text :
    startup_event entries
      (Lib (SplitText (RecursiveCharacterTextSplitter 500 60) text))
| ev_embed_documents emb texts :
    startup_event entries (Lib (EmbedDocuments emb texts))
| ev_build_index db :
    startup_event entries (Lib (BuildIndex db))
| ev_new_llm key :
    startup_event entries
      (Lib (NewLLM {| llm_model := "gemini-1.5-flash"; temperature := 3 # 10;
                      convert_system_message_to_human := true;
                      google_api_key := key |}))
| ev_title :
    startup_event entries (UI (st_title title_text))
| ev_welcome :
    startup_event entries (UI (st_markdown Page welcome_text))
| ev_chat_input :
    startup_event entries (UI (st_chat_input chat_placeholder)).

(** The calls the script can make after the chat input (lines 121-150);
    [submitted] is the value the chat input returned. *)
Inductive conversation_event (submitted : option pystr) : Event -> Prop :=
| ev_chat_message name avatar :
    conversation_event submitted (UI (st_chat_message name avatar))
| ev_chat_markdown name avatar body :
    conversation_event submitted
      (UI (st_markdown (ChatMessage name avatar) body))
| ev_thinking :
    conversation_event submitted (UI (st_spinner thinking_msg))
| ev_invoke_chain chain :
    truthy submitted = true ->
    empty_memory (chain_memory chain) ->
    conversation_event submitted
      (Lib (InvokeChain chain (default [] submitted)))
| ev_expander :
    conversation_event submitted (UI (st_expander sources_label false))
| ev_source_heading meta :
    conversation_event submitted
      (UI (st_markdown sources_expander (source_heading meta)))
| ev_source_code chain q res doc :
    invoke_chain chain q = Ok res -> In doc (result_sources res) ->
    conversation_event submitted
      (UI (st_code sources_expander (source_excerpt doc) "markdown"))
| ev_generic_error :
    truthy submitted = true ->
    conversation_event submitted (UI (st_error generic_error_msg))
| ev_exception e :
    exc_is_Exception e = true ->
    conversation_event submitted (UI (st_exception e)).

(** A variable of the environment is as it was, or holds the text of a
    secret of its name. *)
Definition environ_kept_or_secret
    (entries : list (string * secret)) (env env' : gmap string pystr) : Prop :=
  forall k,
    env' !! k = env !! k \/
    exists value text,
      In (k, value) entries /\ exported value = Some text /\ env' !! k = Some text.

(** What the script may change in the store up to the chat input: the
    secrets may be parsed, and exported to the environment; it may copy the
    key into the environment, fill the resource cache and create an empty
    chat history. *)
Definition startup_frame (s s' : Store) : Prop :=
  (secrets_file s' = secrets_file s \/
   exists entries, secrets_file s = secrets_on_disk entries /\
                   secrets_file s' = secrets_parsed entries) /\
  files s' = files s /\
  environ_kept_or_secret (secret_entries (secrets_file s)) (environ s) (environ s') /\
  (session_state s' = session_state s \/
   session_state s !! "chat_history" = None /\
   session_state s' = <["chat_history" := []]> (session_state s)).

(** What it may change afterwards: the chat history, nothing else. *)
Definition conversation_frame (s s' : Store) : Prop :=
  secrets_file s' = secrets_file s /\
  files s' = files s /\
  environ s' = environ s /\
  resource_cache s' = resource_cache s /\
  (forall k, k <> "chat_history" -> session_state s' !! k = session_state s !! k).

Definition starting : Transition :=
  fun s evs s' =>
    startup_frame s s' /\
    Forall (startup_event (secret_entries (secrets_file s))) evs.

(** The export of secrets among [entries]: environment variables are set
    to the texts of secrets of their names, and nothing else happens. *)
Definition exports (entries : list (string * secret)) (e : Event) : Prop :=
  exists k value text,
    e = SetEnviron k text /\ In (k, value) entries /\ exported value = Some text.

Definition exporting (entries : list (string * secret)) : Transition :=
  fun s evs s' =>
    secrets_file s' = secrets_file s /\
    files s' = files s /\
    session_state s' = session_state s /\
    resource_cache s' = resource_cache s /\
    environ_kept_or_secret entries (environ s) (environ s') /\
    Forall (exports entries) evs.

Definition conversing (submitted : option pystr) : Transition :=
  fun s evs s' =>
    conversation_frame s s' /\ Forall (conversation_event submitted) evs.

End Interface.

(** ** Vocabulary of the properties proved below *)






(** The chat history as the replay loop sees it. *)
Definition history (s : Store) : History :=
  default [] (session_state s !! "chat_history").

(** The steps of the start of the program: reading the text file,
    splitting it, embedding the chunks, building the index, and offering
    the chat input. *)
Definition is_startup_step (e : Event) : bool :=
  match e with
  | OpenRead _ => true
  | Lib (SplitText _ _) => true
  | Lib (EmbedDocuments _ _) => true
  | Lib (BuildIndex _) => true
  | UI (st_chat_input _) => true
  | _ => false
  end.

(** The calls of the start of the script up to the API key guard, and the
    environment variables set there. *)
Definition is_guard_event (e : Event) : bool :=
  match e with
  | UI (set_page_config _ _ _) => true
  | UI (st_error _) => true
  | UI st_stop => true
  | SetEnviron _ _ => true
  | _ => false
  end.

Definition is_set_environ (e : Event) : bool :=
  match e with
  | SetEnviron _ _ => true
  | _ => false
  end.



(** What a chain call is given besides the retriever and the model: the
    messages and the running summary held by its memory, and the question. *)
Definition forwarded (e : Event) : option (list Message * pystr * pystr) :=
  match e with
  | Lib (InvokeChain chain q) =>
      Some (chat_memory (chain_memory chain),
            moving_summary_buffer (chain_memory chain), q)
  | _ => None
  end.

(** The interface a run stays within: calls into the UI framework and the
    libraries, reading the handbook file, and setting an environment
    variable to the text of a secret of its name, among the [entries] of
    the secrets. *)
Definition within_interface (entries : list (string * secret)) (e : Event) : Prop :=
  match e with
  | UI _ => True
  | Lib _ => True
  | OpenRead path => path = handbook_path
  | SetEnviron k v =>
      exists value, In (k, value) entries /\ exported value = Some v
  end.

Definition is_invocation (e : Event) : bool :=
  match e with
  | Lib (InvokeChain _ _) => true
  | _ => false
  end.

Definition is_source_code (e : Event) : bool :=
  match e with
  | UI (st_code _ _ _) => true
  | _ => false
  end.

(** Calls into the UI framework and into the libraries, the hosted model
    included; what is left is file and environment access. *)
Definition ui_or_library (e : Event) : bool :=
  match e with
  | UI _ => true
  | Lib _ => true
  | OpenRead _ => false
  | SetEnviron _ _ => false
  end.

(** Calls that only draw on the page: chat bubbles, markdown, code. *)
Definition is_render (e : Event) : bool :=
  match e with
  | UI (st_chat_message _ _) => true
  | UI (st_markdown _ _) => true
  | UI (st_code _ _ _) => true
  | _ => false
  end.

(** Calls that draw a chat bubble and its text. *)
Definition is_chat (e : Event) : bool :=
  match e with
  | UI (st_chat_message _ _) => true
  | UI (st_markdown (ChatMessage _ _) _) => true
  | _ => false
  end.

(** A step that only draws, with calls among [p]: the store is untouched. *)
Definition drawing (p : Event -> bool) : Transition :=
  fun s evs s' => s' = s /\ Forall (fun e => p e = true) evs.

Section RunVocabulary.

Context {ext : Externals}.


(** With the key in the environment, it stays there, and every chat model
    that is built is given it. *)
Definition keyed (key : pystr) : Transition :=
  fun s evs s' =>
    environ s !! "GOOGLE_API_KEY" = Some key ->
    environ s' !! "GOOGLE_API_KEY" = Some key /\
    Forall (fun e => forall llm, e = Lib (NewLLM llm) ->
                                 google_api_key llm = Some key) evs.

(** The two calls that show one source document. *)
Definition source_heading_event (doc : Document) : Event :=
  UI (st_markdown sources_expander (source_heading (metadata doc))).

Definition source_code_event (doc : Document) : Event :=
  UI (st_code sources_expander (source_excerpt doc) "markdown").

(** How the handling of a query can end. *)

(** Answered: the chain returned an answer, it was drawn, the sources were
    shown, and the turn was appended to the chat history. *)
Definition answered (chain : Chain) (q : pystr) (s : Store) (r : Step unit) : Prop :=
  exists res resp h,
    invoke_chain chain q = Ok res /\
    res_answer res = Some resp /\
    session_state s !! "chat_history" = Some h /\
    store_after r = set_session_store "chat_history" (h ++ [(q, resp)]) s /\
    result r = Ok tt /\
    In (UI (st_markdown (ChatMessage (py "assistant") robot) resp)) (emitted r) /\
    List.filter is_source_code (emitted r)
      = map source_code_event (result_sources res) /\
    ~ In (UI (st_error generic_error_msg)) (emitted r).

(** Failed: the store is as it was; the generic message was shown, or the
    exception left the script. *)
Definition failed (s : Store) (r : Step unit) : Prop :=
  store_after r = s /\
  (In (UI (st_error generic_error_msg)) (emitted r) \/
   exists e, result r = Raised e).

(** Idle: nothing was asked; the page was drawn and the store is as it was. *)
Definition idle (s : Store) (r : Step unit) : Prop :=
  store_after r = s /\ result r = Ok tt /\
  Forall (fun e => is_chat e = true) (emitted r).

(** How a run can end, as far as the session state goes. *)

(** Recorded: the question was answered and the turn is in the history. *)
Definition recorded (submitted : option pystr) (s : Store) (r : Step unit) : Prop :=
  exists chain q res resp,
    submitted = Some q /\
    invoke_chain chain q = Ok res /\
    res_answer res = Some resp /\
    result r = Ok tt /\
    session_state (store_after r)
      = <["chat_history" := history s ++ [(q, resp)]]> (session_state s) /\
    In (UI (st_markdown (ChatMessage (py "assistant") robot) resp)) (emitted r) /\
    List.filter is_source_code (emitted r)
      = map source_code_event (result_sources res) /\
    ~ In (UI (st_error generic_error_msg)) (emitted r).

(** Unrecorded: the session state is as it was, up to the creation of an
    empty history. *)
Definition unrecorded (s : Store) (r : Step unit) : Prop :=
  session_state (store_after r) = session_state s \/
  session_state s !! "chat_history" = None /\
  session_state (store_after r) = <["chat_history" := []]> (session_state s).

Definition invoked_at_most_once (r : Step unit) : Prop :=
  length (List.filter is_invocation (emitted r)) <= 1.

End RunVocabulary.

(** ** Vocabulary of the properties of sessions, the cache and the page *)

(** The calls that build the vector store (lines 31-42). *)
Definition loads_vector_store (e : Event) : bool :=
  match e with
  | OpenRead _ => true
  | Lib (NewEmbeddings _) => true
  | Lib (SplitText _ _) => true
  | Lib (EmbedDocuments _ _) => true
  | Lib (BuildIndex _) => true
  | _ => false
  end.

Definition is_index_build (e : Event) : bool :=
  match e with
  | Lib (BuildIndex _) => true
  | _ => false
  end.

(** The calls that come after the vector store is there: the chat model,
    the chat input and the chain. *)
Definition needs_vector_store (e : Event) : bool :=
  match e with
  | Lib (NewLLM _) => true
  | Lib (InvokeChain _ _) => true
  | UI (st_chat_input _) => true
  | _ => false
  end.

(** The four calls that draw one turn of the conversation: the bubble of
    the user with the question, the bubble of the assistant with the
    answer. *)
Definition turn_events (turn : pystr * pystr) : list Event :=
  [ UI (st_chat_message (py "user") person);
    UI (st_markdown (ChatMessage (py "user") person) (fst turn));
    UI (st_chat_message (py "assistant") robot);
    UI (st_markdown (ChatMessage (py "assistant") robot) (snd turn)) ].

(** The heading of a source document without [source] and [section]. *)
Definition unknown_heading : pystr :=
  py "**Unknown " ++ [0x2192%N] ++ py "** `N/A`".

Definition all_space (s : pystr) : Prop :=
  Forall (fun c => py_isspace c = true) s.

(** Every chain call in the events is a call of [chain]. *)
Definition calling (chain : Chain) : Transition :=
  fun _ evs _ =>
    Forall (fun e => forall c q, e = Lib (InvokeChain c q) -> c = chain) evs.

Section SessionVocabulary.

Context {ext : Externals}.

(** A session: the UI framework executes the script once per interaction,
    each time from the store the execution before left, whether it ended
    normally or not. *)
Fixpoint session (inputs : list (option pystr)) (s : Store) : Store :=
  match inputs with
  | [] => s
  | submitted :: later => session later (store_after (script submitted s))
  end.

(** The calls of the runs of a session, in order. *)
Fixpoint session_events (inputs : list (option pystr)) (s : Store) : list Event :=
  match inputs with
  | [] => []
  | submitted :: later =>
      emitted (script submitted s)
        ++ session_events later (store_after (script submitted s))
  end.

(** The chain as lines 53-100 build it from the key and the retriever. *)
Definition configured_chain (key : option pystr) (retriever : Retriever) : Chain :=
  let gemini_llm :=
    {| llm_model := "gemini-1.5-flash"; temperature := 3 # 10;
       convert_system_message_to_human := true; google_api_key := key |} in
  ConversationalRetrievalChain_from_llm gemini_llm retriever
    (ConversationSummaryBufferMemory gemini_llm "chat_history" true "answer")
    true prompt "answer" false.

(** The vector store over the chunks of [text], with [vectors] as their
    embeddings, as lines 31-45 build it. *)
Definition handbook_retriever (text : pystr) (vectors : list Vector) : Retriever :=
  let embedding := {| model_name := py "all-MiniLM-L6-v2" |} in
  let docs := map new_Document (split_text (RecursiveCharacterTextSplitter 500 60) text) in
  as_retriever {| embedding_function := embedding; index := zip vectors docs |}
    "mmr" 8 18.

End SessionVocabulary.
(** * Proofs *)

(** ** Invariants of scripts *)

Section Keeps.

Context {ext : Externals}.
Context (P : Transition) {HP : Invariant P}.

Lemma bind_unfold {A B} (m : M A) (f : A -> M B) s :
  bind m f s =
  match result (m s) with
  | Ok a =>
      mkStep (emitted (m s) ++ emitted (f a (store_after (m s))))
             (store_after (f a (store_after (m s))))
             (result (f a (store_after (m s))))
  | Raised e => mkStep (emitted (m s)) (store_after (m s)) (Raised e)
  end.
Proof.
  unfold bind. destruct (m s) as [ev s1 [a | e]]; simpl; [ | reflexivity ].
  destruct (f a s1); reflexivity.
Qed.

Lemma try_except_unfold (body : M unit) handler s :
  try_except body handler s =
  match result (body s) with
  | Ok a => body s
  | Raised e =>
      if exc_is_Exception e
      then mkStep (emitted (body s) ++ emitted (handler e (store_after (body s))))
                  (store_after (handler e (store_after (body s))))
                  (result (handler e (store_after (body s))))
      else body s
  end.
Proof.
  unfold try_except. destruct (body s) as [ev s1 [a | e]]; simpl; [ reflexivity | ].
  destruct (exc_is_Exception e); [ | reflexivity ].
  destruct (handler e s1); reflexivity.
Qed.

Lemma keeps_at_ret {A} (a : A) s : keeps_at P (ret a) s.
Proof. apply inv_nil. Qed.

Lemma keeps_at_raise {A} e s : keeps_at P (@raise A e) s.
Proof. apply inv_nil. Qed.

Lemma keeps_at_get_store s : keeps_at P get_store s.
Proof. apply inv_nil. Qed.

Lemma keeps_at_lift_outcome {A} (o : outcome A) s : keeps_at P (lift_outcome o) s.
Proof. destruct o; apply inv_nil. Qed.

Lemma keeps_at_lift_fault o s : keeps_at P (lift_fault o) s.
Proof. destruct o; apply inv_nil. Qed.

Lemma keeps_at_emit e s : P s [e] s -> keeps_at P (emit e) s.
Proof. intros H. exact H. Qed.

Lemma keeps_at_ui c s : P s [UI c] s -> keeps_at P (ui c) s.
Proof. intros H. exact H. Qed.

Lemma keeps_at_modify f s : P s [] (f s) -> keeps_at P (modify f) s.
Proof. intros H. exact H. Qed.

Lemma keeps_at_bind {A B} (m : M A) (f : A -> M B) s :
  keeps_at P m s ->
  (forall a, result (m s) = Ok a -> keeps_at P (f a) (store_after (m s))) ->
  keeps_at P (bind m f) s.
Proof.
  unfold keeps_at. intros Hm Hf. rewrite bind_unfold.
  destruct (result (m s)) as [a | e] eqn:Hr; simpl.
  - eapply inv_app; [ exact Hm | apply Hf; reflexivity ].
  - exact Hm.
Qed.

Lemma keeps_at_bind_get_store {B} (f : Store -> M B) s :
  keeps_at P (f s) s -> keeps_at P (bind get_store f) s.
Proof.
  intros H. apply keeps_at_bind; [ apply keeps_at_get_store | ].
  simpl. intros a [= <-]. exact H.
Qed.

Lemma keeps_at_try_except (body : M unit) handler s :
  keeps_at P body s ->
  (forall e, result (body s) = Raised e -> exc_is_Exception e = true ->
             keeps_at P (handler e) (store_after (body s))) ->
  keeps_at P (try_except body handler) s.
Proof.
  unfold keeps_at. intros Hb Hh. rewrite try_except_unfold.
  destruct (result (body s)) as [a | e] eqn:Hr; [ exact Hb | ].
  destruct (exc_is_Exception e) eqn:He; [ | exact Hb ].
  simpl. eapply inv_app; [ exact Hb | apply Hh; [ reflexivity | exact He ] ].
Qed.

Lemma keeps_at_for_each {A} (l : list A) (body : A -> M unit) :
  (forall x s, In x l -> keeps_at P (body x) s) ->
  forall s, keeps_at P (for_each l body) s.
Proof.
  induction l as [ | x l IH ]; intros Hbody s; simpl.
  - apply keeps_at_ret.
  - apply keeps_at_bind.
    + apply Hbody. left. reflexivity.
    + intros _ _. apply IH. intros y s' Hy. apply Hbody. right. exact Hy.
Qed.

End Keeps.

(** One step of a proof that a script keeps an invariant: follow the
    structure of the script down to its primitive calls. *)
Ltac forget_store :=
  cbn [store_after ui emit ret raise get_store];
  lazymatch goal with
  | |- keeps_at _ _ ?st => tryif is_var st then idtac else (generalize st; intro)
  end.

Ltac keeps_step :=
  lazymatch goal with
  | |- keeps_at _ (bind get_store _) _ => apply keeps_at_bind_get_store; [ exact _ | ]
  | |- keeps_at _ (bind _ _) _ =>
      apply keeps_at_bind; [ exact _ | | intros ? ?; forget_store ]
  | |- keeps_at _ (ret _) _ => apply keeps_at_ret; exact _
  | |- keeps_at _ (raise _) _ => apply keeps_at_raise; exact _
  | |- keeps_at _ get_store _ => apply keeps_at_get_store; exact _
  | |- keeps_at _ (lift_outcome _) _ => apply keeps_at_lift_outcome; exact _
  | |- keeps_at _ (lift_fault _) _ => apply keeps_at_lift_fault; exact _
  | |- keeps_at _ (emit _) _ => apply keeps_at_emit
  | |- keeps_at _ (ui _) _ => apply keeps_at_ui
  | |- keeps_at _ (modify _) _ => apply keeps_at_modify
  | |- keeps_at _ (try_except _ _) _ =>
      apply keeps_at_try_except; [ exact _ | | intros ? ? ?; forget_store ]
  | |- keeps_at _ (match ?x with _ => _ end) _ => destruct x eqn:?
  end.


(** ** The script stays within its interface *)

Section InterfaceFacts.

Context {ext : Externals}.

Lemma environ_kept_refl entries env : environ_kept_or_secret entries env env.
Proof. intros k. left. reflexivity. Qed.

Lemma environ_kept_trans entries env1 env2 env3 :
  environ_kept_or_secret entries env1 env2 ->
  environ_kept_or_secret entries env2 env3 ->
  environ_kept_or_secret entries env1 env3.
Proof.
  intros H1 H2 k. destruct (H2 k) as [ -> | H ]; [ apply H1 | right; exact H ].
Qed.

Lemma environ_kept_insert entries env k value text :
  In (k, value) entries -> exported value = Some text ->
  environ_kept_or_secret entries env (<[k := text]> env).
Proof.
  intros Hin Hexp k'. destruct (decide (k' = k)) as [ -> | Hne ].
  - right. exists value, text. rewrite lookup_insert_eq. repeat split; assumption.
  - left. apply lookup_insert_ne. congruence.
Qed.

Lemma startup_frame_entries s s' :
  startup_frame s s' ->
  secret_entries (secrets_file s') = secret_entries (secrets_file s).
Proof.
  intros ([ -> | (entries & -> & ->) ] & _); reflexivity.
Qed.

Lemma startup_frame_secrets s s' : startup_frame s s' -> secrets s' = secrets s.
Proof.
  intros H. unfold secrets. rewrite (startup_frame_entries _ _ H). reflexivity.
Qed.

Lemma startup_frame_refl s : startup_frame s s.
Proof.
  split; [ left; reflexivity | ]. split; [ reflexivity | ].
  split; [ apply environ_kept_refl | left; reflexivity ].
Qed.

Lemma startup_frame_trans s1 s2 s3 :
  startup_frame s1 s2 -> startup_frame s2 s3 -> startup_frame s1 s3.
Proof.
  intros H1 H2. pose proof (startup_frame_entries _ _ H1) as Hentries.
  destruct H1 as (Hs1 & Hf1 & He1 & Hh1). destruct H2 as (Hs2 & Hf2 & He2 & Hh2).
  split; [ | split; [ congruence | split ] ].
  - destruct Hs2 as [ -> | (entries & Hdisk & ->) ]; [ exact Hs1 | ].
    destruct Hs1 as [ Hs1 | (entries' & _ & Hs1) ]; [ | congruence ].
    right. exists entries. rewrite <- Hs1. split; [ exact Hdisk | reflexivity ].
  - rewrite Hentries in He2. eapply environ_kept_trans; eassumption.
  - destruct Hh2 as [ Hh2 | (Hnone & Hh2) ].
    + rewrite Hh2. exact Hh1.
    + destruct Hh1 as [ Hh1 | (Hnone' & Hh1) ].
      * right. rewrite Hh2, <- Hh1. split; [ exact Hnone | reflexivity ].
      * rewrite Hh1, lookup_insert_eq in Hnone. discriminate.
Qed.

Lemma conversation_frame_refl s : conversation_frame s s.
Proof. repeat split; reflexivity. Qed.

Lemma conversation_frame_trans s1 s2 s3 :
  conversation_frame s1 s2 -> conversation_frame s2 s3 -> conversation_frame s1 s3.
Proof.
  intros (Hs1 & Hf1 & He1 & Hc1 & Hh1) (Hs2 & Hf2 & He2 & Hc2 & Hh2).
  repeat split; try congruence.
  intros k Hk. rewrite Hh2, Hh1 by exact Hk. reflexivity.
Qed.

#[export] Instance starting_invariant : Invariant starting.
Proof.
  split; unfold starting.
  - intros s. split; [ apply startup_frame_refl | constructor ].
  - intros s1 e1 s2 e2 s3 [Hf1 He1] [Hf2 He2]. split.
    + eapply startup_frame_trans; eassumption.
    + apply Forall_app. split; [ exact He1 | ].
      rewrite <- (startup_frame_entries _ _ Hf1). exact He2.
Qed.

#[export] Instance exporting_invariant entries : Invariant (exporting entries).
Proof.
  split; unfold exporting.
  - intros s. repeat split; try reflexivity; [ apply environ_kept_refl | constructor ].
  - intros s1 e1 s2 e2 s3 (Hs1 & Hf1 & Hh1 & Hc1 & He1 & Hev1)
      (Hs2 & Hf2 & Hh2 & Hc2 & He2 & Hev2).
    repeat split; try congruence.
    + eapply environ_kept_trans; eassumption.
    + apply Forall_app. split; assumption.
Qed.

#[export] Instance conversing_invariant submitted : Invariant (conversing submitted).
Proof.
  split; unfold conversing.
  - intros s. split; [ apply conversation_frame_refl | constructor ].
  - intros s1 e1 s2 e2 s3 [Hf1 He1] [Hf2 He2]. split.
    + eapply conversation_frame_trans; eassumption.
    + apply Forall_app. split; assumption.
Qed.

Lemma starting_one s e :
  startup_event (secret_entries (secrets_file s)) e -> starting s [e] s.
Proof.
  intros H. split; [ apply startup_frame_refl | ].
  constructor; [ exact H | constructor ].
Qed.

Lemma conversing_one submitted s e :
  conversation_event submitted e -> conversing submitted s [e] s.
Proof.
  intros H. split; [ apply conversation_frame_refl | ].
  constructor; [ exact H | constructor ].
Qed.

Lemma starting_set_cache s r : starting s [] (set_cache_store r s).
Proof.
  split; [ | constructor ].
  split; [ left; reflexivity | ]. split; [ reflexivity | ].
  split; [ apply environ_kept_refl | left; reflexivity ].
Qed.

Lemma starting_init_history s :
  session_state s !! "chat_history" = None ->
  starting s [] (set_session_store "chat_history" [] s).
Proof.
  intros Hnone. split; [ | constructor ].
  split; [ left; reflexivity | ]. split; [ reflexivity | ].
  split; [ apply environ_kept_refl | ].
  right. split; [ exact Hnone | reflexivity ].
Qed.

Lemma conversing_set_history submitted s h :
  conversing submitted s [] (set_session_store "chat_history" h s).
Proof.
  split; [ | constructor ]. repeat split; simpl.
  intros k Hk. apply lookup_insert_ne. congruence.
Qed.

Lemma startup_rest_starting : keeps starting startup_rest.
Proof.
  intros s.
  unfold startup_rest, load_vector_store,
    cache_resource, load_vector_store_body, HuggingFaceEmbeddings, open_read,
    splitter_split_text, FAISS_from_documents, build_chain,
    ChatGoogleGenerativeAI, page_header, init_chat_history.
  repeat keeps_step;
    first [ apply starting_set_cache
          | apply starting_init_history; assumption
          | apply starting_one; constructor; assumption ].
Qed.

(** The export of secrets sets environment variables to secrets. *)
Lemma exporting_set_environ entries k value text s :
  In (k, value) entries -> exported value = Some text ->
  keeps_at (exporting entries) (set_environ k text) s.
Proof.
  intros Hin Hexp. unfold set_environ.
  repeat keeps_step.
  - unfold exporting. repeat split; try reflexivity; [ apply environ_kept_refl | ].
    constructor; [ | constructor ]. exists k, value, text. repeat split; assumption.
  - unfold exporting. repeat split; try reflexivity; [ | constructor ].
    apply environ_kept_insert with value; assumption.
Qed.

Lemma export_loop entries l :
  (forall entry, In entry l -> In entry entries) ->
  keeps (exporting entries) (for_each l export_secret).
Proof.
  intros Hsub s. apply keeps_at_for_each; [ exact _ | ].
  intros [k value] s' Hin. unfold export_secret. cbn [fst snd].
  destruct (exported value) as [ text | ] eqn:Hexp.
  - apply exporting_set_environ with value; [ apply Hsub, Hin | exact Hexp ].
  - apply keeps_at_ret. exact _.
Qed.

Lemma exporting_starting entries s evs s' :
  secret_entries (secrets_file s) = entries ->
  exporting entries s evs s' -> starting s evs s'.
Proof.
  intros <- (Hs & Hf & Hh & Hc & He & Hev). split.
  - split; [ left; exact Hs | ]. split; [ exact Hf | ].
    split; [ exact He | left; exact Hh ].
  - eapply Forall_impl; [ exact Hev | ].
    intros e (k & value & text & -> & Hin & Hexp).
    eapply ev_set_environ; eassumption.
Qed.


Lemma call_chain_result chain q s res :
  result (call_chain chain q s) = Ok res -> invoke_chain chain q = Ok res.
Proof.
  unfold call_chain. rewrite bind_unfold. simpl.
  destruct (invoke_chain chain q); simpl; congruence.
Qed.

Lemma chat_message_conversing submitted name avatar body :
  keeps (conversing submitted) (chat_message name avatar body).
Proof.
  intros s. unfold chat_message.
  repeat keeps_step; apply conversing_one; constructor.
Qed.

Lemma replay_turn_conversing submitted turn :
  keeps (conversing submitted) (replay_turn turn).
Proof.
  intros s. destruct turn as [user_msg bot_msg]. unfold replay_turn.
  repeat keeps_step; apply chat_message_conversing.
Qed.

Lemma show_source_conversing submitted chain q res doc :
  invoke_chain chain q = Ok res -> In doc (result_sources res) ->
  keeps (conversing submitted) (show_source doc).
Proof.
  intros Hres Hdoc s. unfold show_source.
  repeat keeps_step; apply conversing_one.
  - constructor.
  - eapply ev_source_code; eassumption.
Qed.

Lemma handle_query_conversing submitted chain :
  truthy submitted = true ->
  empty_memory (chain_memory chain) ->
  keeps (conversing submitted) (handle_query chain (default [] submitted)).
Proof.
  intros Htruthy Hmem s.
  unfold handle_query, guarded_answer, answer_query, result_answer,
    report_failure, append_chat_history, get_chat_history.
  repeat keeps_step;
    try apply chat_message_conversing;
    try (apply conversing_one; constructor; assumption);
    try apply conversing_set_history.
  - unfold call_chain. repeat keeps_step. apply conversing_one.
    constructor; assumption.
  - apply keeps_at_for_each; [ exact _ | ]. intros doc s' Hdoc.
    eapply show_source_conversing; [ | exact Hdoc ].
    eapply call_chain_result. eassumption.
Qed.

Lemma conversation_conversing submitted chain :
  empty_memory (chain_memory chain) ->
  keeps (conversing submitted) (conversation chain submitted).
Proof.
  intros Hmem s.
  unfold conversation, replay_history, get_chat_history.
  repeat keeps_step.
  - apply keeps_at_for_each; [ exact _ | ]. intros turn s' _.
    apply replay_turn_conversing.
  - apply handle_query_conversing; assumption.
Qed.

End InterfaceFacts.

(** ** The shape of a run *)

Section Shape.

Context {ext : Externals}.

(** A run is the startup followed by the conversation. *)
Lemma script_startup_conversation submitted s :
  script submitted s =
  (qa_chain <- startup ;; conversation qa_chain submitted) s.
Proof.
  unfold script, startup, chat_page, bind.
  destruct (ui (set_page_config page_title robot "wide") s)
    as [e1 s1 [ [] | x ]]; [ | reflexivity ].
  destruct (api_key_setup s1) as [e2 s2 [ [] | x ]]; [ | reflexivity ].
  destruct (load_vector_store s2) as [e3 s3 [ retriever | x ]]; [ | reflexivity ].
  destruct (build_chain retriever s3) as [e4 s4 [ chain | x ]]; [ | reflexivity ].
  destruct (page_header s4) as [e5 s5 [ [] | x ]]; [ | reflexivity ].
  destruct (init_chat_history s5) as [e6 s6 [ [] | x ]]; [ | reflexivity ].
  destruct (ui (st_chat_input chat_placeholder) s6)
    as [e7 s7 [ [] | x ]]; [ | reflexivity ].
  simpl. destruct (conversation chain submitted s7) as [e8 s8 r8].
  rewrite app_nil_r, <- !app_assoc. reflexivity.
Qed.

End Shape.

(** ** Running a script step by step *)

(** Unfold the monad, then decide the outermost call whose answer is not
    known yet: the branches are the paths of the script, in order. *)
Ltac run_cbv :=
  repeat
    (progress
       (cbv beta iota delta
          [bind try_except ui emit ret raise get_store modify lift_fault lift_outcome];
        cbn [set_secrets_store set_environ_store set_session_store set_cache_store
             secrets_file environ files session_state resource_cache])).

Section Loops.

Context {ext : Externals}.

#[export] Instance drawing_invariant p : Invariant (drawing p).
Proof.
  split; unfold drawing.
  - intros s. split; [ reflexivity | constructor ].
  - intros s1 e1 s2 e2 s3 [-> H1] [-> H2]. split; [ reflexivity | ].
    apply Forall_app. split; assumption.
Qed.

Lemma drawing_one p s e : p e = true -> drawing p s [e] s.
Proof.
  intros H. split; [ reflexivity | ]. constructor; [ exact H | constructor ].
Qed.

Lemma replay_drawing h : keeps (drawing is_chat) (for_each h replay_turn).
Proof.
  intros s. apply keeps_at_for_each; [ exact _ | ].
  intros [user_msg bot_msg] s' _. unfold replay_turn, chat_message.
  repeat keeps_step; apply drawing_one; reflexivity.
Qed.

Lemma sources_drawing docs : keeps (drawing is_render) (for_each docs show_source).
Proof.
  intros s. apply keeps_at_for_each; [ exact _ | ].
  intros doc s' _. unfold show_source.
  repeat keeps_step; apply drawing_one; reflexivity.
Qed.

Lemma show_source_run doc s :
  show_source doc s =
  match ui_fault (st_markdown sources_expander (source_heading (metadata doc))) with
  | Some e => mkStep [source_heading_event doc] s (Raised e)
  | None =>
      mkStep [source_heading_event doc; source_code_event doc] s
        match ui_fault (st_code sources_expander (source_excerpt doc) "markdown") with
        | Some e => Raised e
        | None => Ok tt
        end
  end.
Proof.
  unfold show_source, sources_expander. run_cbv.
  destruct (ui_fault (st_markdown _ _)); reflexivity.
Qed.

(** When the loop over the sources completes, it has shown one excerpt per
    source document, in order. *)
Lemma sources_shown docs s :
  result (for_each docs show_source s) = Ok tt ->
  List.filter is_source_code (emitted (for_each docs show_source s))
  = map source_code_event docs.
Proof.
  induction docs as [ | doc docs IH ]; [ reflexivity | ].
  simpl for_each. unfold bind. rewrite show_source_run.
  destruct (ui_fault (st_markdown _ _)); [ discriminate | ].
  destruct (ui_fault (st_code _ _ _)); [ discriminate | ].
  destruct (for_each docs show_source s) as [ev s' r]. simpl in *.
  intros Hr. rewrite (IH Hr). reflexivity.
Qed.

Lemma drawn_filter (p f : Event -> bool) evs :
  (forall e, p e = true -> f e = false) ->
  Forall (fun e => p e = true) evs ->
  List.filter f evs = [].
Proof.
  intros Hf Hall. induction Hall as [ | e evs He _ IH ]; [ reflexivity | ].
  simpl. rewrite (Hf e He). exact IH.
Qed.

Lemma drawn_not_in (p : Event -> bool) e evs :
  p e = false ->
  Forall (fun e => p e = true) evs ->
  ~ In e evs.
Proof.
  intros He Hall Hin. rewrite Forall_forall in Hall.
  apply list_elem_of_In in Hin. specialize (Hall e Hin). congruence.
Qed.

Lemma render_no_invocation e : is_render e = true -> is_invocation e = false.
Proof. destruct e as [ [] | | | [] ]; simpl; congruence. Qed.

Lemma render_no_startup_step e : is_render e = true -> is_startup_step e = false.
Proof. destruct e as [ [] | | | [] ]; simpl; congruence. Qed.

Lemma chat_is_render e : is_chat e = true -> is_render e = true.
Proof. destruct e as [ [ | | | | [] | | | | | | ] | | | ]; simpl; congruence. Qed.

Lemma chat_no_invocation e : is_chat e = true -> is_invocation e = false.
Proof. intros H. apply render_no_invocation, chat_is_render, H. Qed.

Lemma chat_no_startup_step e : is_chat e = true -> is_startup_step e = false.
Proof. intros H. apply render_no_startup_step, chat_is_render, H. Qed.

Lemma chat_no_source_code e : is_chat e = true -> is_source_code e = false.
Proof. destruct e as [ [ | | | | [] | | | | | | ] | | | ]; simpl; congruence. Qed.

End Loops.

(** Decide the outermost call whose answer is not known yet.  A loop is
    decided as a whole: a loop of the page leaves the store alone and only
    draws; the export of the secrets only sets environment variables. *)
Ltac case_loop l body s :=
  let H := fresh "Hdraw" in
  let E := fresh "Eloop" in
  let ev := fresh "drawn" in
  let s' := fresh "s" in
  let r := fresh "r" in
  first
    [ first [ pose proof (sources_drawing l s) as H
            | pose proof (replay_drawing l s) as H ];
      unfold keeps_at, drawing in H;
      revert H;
      destruct (for_each l body s) as [ev s' r] eqn:E;
      cbn [emitted store_after]; intros [-> H]
    | pose proof (export_loop l l (fun _ Hin => Hin) s) as H;
      unfold keeps_at in H;
      revert H;
      destruct (for_each l body s) as [ev s' r] eqn:E;
      cbn [emitted store_after]; intros H ].

Ltac case_innermost x :=
  lazymatch x with
  | match ?y with _ => _ end => case_innermost y
  | (match ?y with _ => _ end) _ => case_innermost y
  | for_each ?l ?body ?s => case_loop l body s
  | _ => match goal with
         | H : x = _ |- _ => rewrite H
         | _ => destruct x eqn:?
         end
  end.

Ltac run_head :=
  lazymatch goal with
  | |- _ (match ?x with _ => _ end) => case_innermost x
  end; run_cbv.

(** Membership in an event list that is known up to the events of loops. *)
Ltac in_events :=
  simpl;
  repeat first [ assumption | left; reflexivity | left; assumption
               | right | rewrite in_app_iff ].

Ltac not_in_events :=
  let H := fresh "Hin" in
  intros H; simpl in H; rewrite ?in_app_iff in H; simpl in H;
  repeat match goal with
         | H : _ \/ _ |- _ => destruct H as [ H | H ]
         | H : False |- _ => destruct H
         | H : In _ ?ev, Hd : Forall _ ?ev |- _ =>
             exfalso; revert H; eapply drawn_not_in; [ | exact Hd ]; reflexivity
         | H : _ = _ |- _ => discriminate H
         end.

Ltac count_events :=
  simpl; rewrite ?List.filter_app; simpl;
  repeat match goal with
         | Hd : Forall _ ?ev |- context [List.filter ?f ?ev] =>
             first
               [ rewrite (drawn_filter is_render f ev render_no_invocation Hd)
               | rewrite (drawn_filter is_render f ev render_no_startup_step Hd)
               | rewrite (drawn_filter is_chat f ev chat_no_invocation Hd)
               | rewrite (drawn_filter is_chat f ev chat_no_startup_step Hd)
               | rewrite (drawn_filter is_chat f ev chat_no_source_code Hd) ]
         end;
  simpl; try lia.

(** [Forall] over a list of events that is known up to the events of
    loops. *)
Ltac forall_events leaf :=
  repeat lazymatch goal with
         | |- Forall _ [] => constructor
         | |- Forall _ (_ :: _) => constructor
         | |- Forall _ (_ ++ _) => apply Forall_app; split
         | |- _ => leaf
         end.

(** ** The start of the script and the API key guard *)

Section GuardLemmas.

Context {ext : Externals}.

Lemma toml_dict_in entries k value :
  toml_dict entries !! k = Some value -> In (k, value) entries.
Proof.
  unfold toml_dict. intros H. apply elem_of_list_to_map_2 in H.
  apply list_elem_of_In, elem_of_reverse. exact H.
Qed.

Lemma secrets_lookup s k key :
  secrets s !! k = Some key <->
  toml_dict (secret_entries (secrets_file s)) !! k = Some (secret_str key).
Proof.
  unfold secrets. rewrite lookup_omap.
  destruct (toml_dict _ !! k) as [ [ t | ty t | ty ] | ]; simpl; split;
    intros H; try discriminate H; congruence.
Qed.

Lemma frame_exported entries s evs s' :
  secret_entries (secrets_file s) = entries ->
  exporting entries s evs s' -> startup_frame s s'.
Proof.
  intros Hentries H. exact (proj1 (exporting_starting _ _ _ _ Hentries H)).
Qed.

Lemma frame_parsed entries s s' :
  secrets_file s = secrets_on_disk entries ->
  startup_frame s s' ->
  startup_frame s (set_secrets_store (secrets_parsed entries) s').
Proof.
  intros Hdisk (_ & Hf & He & Hh).
  split; [ right; exists entries; split; [ exact Hdisk | reflexivity ] | ].
  split; [ exact Hf | ]. split; [ exact He | exact Hh ].
Qed.

Lemma frame_set_environ s s' k value text :
  In (k, value) (secret_entries (secrets_file s)) ->
  exported value = Some text ->
  startup_frame s s' ->
  startup_frame s (set_environ_store k text s').
Proof.
  intros Hin Hexp (Hs & Hf & He & Hh).
  split; [ exact Hs | ]. split; [ exact Hf | ]. split; [ | exact Hh ].
  cbn [environ set_environ_store].
  eapply environ_kept_trans; [ exact He | ].
  apply environ_kept_insert with value; assumption.
Qed.

Lemma exports_guard_event entries e : exports entries e -> is_guard_event e = true.
Proof. intros (k & value & text & -> & _). reflexivity. Qed.

Lemma exports_set_environ entries evs :
  Forall (exports entries) evs -> Forall (fun e => is_set_environ e = true) evs.
Proof.
  intros H. eapply Forall_impl; [ exact H | ].
  intros e (k & value & text & -> & _). reflexivity.
Qed.

Lemma exports_startup_event entries e : exports entries e -> startup_event entries e.
Proof.
  intros (k & value & text & -> & Hin & Hexp). eapply ev_set_environ; eassumption.
Qed.

End GuardLemmas.

(** What is known on a path through the guard: the entries of the secrets,
    what their export has done, and that the key is among them. *)
Ltac guard_entries :=
  try match goal with
      | H : secret_entries (secrets_file _) = _ |- _ => rewrite H
      end.

Ltac guard_context :=
  try match goal with
      | H : secrets_file ?st = secrets_on_disk _ |- _ =>
          let E := fresh "Hentries" in
          pose proof (f_equal secret_entries H) as E; cbn [secret_entries] in E
      | H : secrets_file ?st = secrets_parsed _ |- _ =>
          let E := fresh "Hentries" in
          pose proof (f_equal secret_entries H) as E; cbn [secret_entries] in E
      | H : secrets_file ?st = secrets_unreadable _ |- _ =>
          let E := fresh "Hentries" in
          pose proof (f_equal secret_entries H) as E; cbn [secret_entries] in E
      end;
  try match goal with
      | H : exporting _ _ _ _ |- _ =>
          let F := fresh "Hframe" in
          let D := fresh "Hdraw" in
          pose proof (frame_exported _ _ _ _ ltac:(eassumption) H) as F;
          pose proof (exports_set_environ _ _ (proj2 (proj2 (proj2 (proj2 (proj2 H)))))) as D;
          destruct H as (? & ? & ? & ? & ? & ?)
      end;
  try match goal with
      | H : toml_dict _ !! _ = Some _ |- _ =>
          let K := fresh "Hkey" in
          pose proof (toml_dict_in _ _ _ H) as K
      end.

Ltac guard_frame :=
  repeat first
    [ assumption
    | apply startup_frame_refl
    | eapply frame_set_environ; [ guard_entries; eassumption | reflexivity | ]
    | eapply frame_parsed; [ eassumption | ] ].

Ltac guard_calls :=
  guard_entries;
  forall_events
    ltac:(first
            [ match goal with
              | H : Forall (exports _) ?l |- Forall _ ?l =>
                  eapply Forall_impl; [ exact H | apply exports_startup_event ]
              end
            | solve [ constructor; assumption ]
            | solve [ eapply ev_set_environ; [ eassumption | reflexivity ] ] ]).

Section GuardFacts.

Context {ext : Externals}.

(** What the start of the script up to the guard does: it stays within
    the interface of the startup, touches neither the session state nor
    the cache, and when it ends normally the key of the secrets is a
    string and has been written to the environment. *)
Lemma guard_facts s :
  starting s (emitted (guard s)) (store_after (guard s)) /\
  session_state (store_after (guard s)) = session_state s /\
  resource_cache (store_after (guard s)) = resource_cache s /\
  Forall (fun e => is_guard_event e = true) (emitted (guard s)) /\
  (forall u, result (guard s) = Ok u ->
     exists key,
       secrets s !! "GOOGLE_API_KEY" = Some key /\
       environ (store_after (guard s)) !! "GOOGLE_API_KEY" = Some key /\
       In (SetEnviron "GOOGLE_API_KEY" key) (emitted (guard s))).
Proof.
  set (P := fun r : Step unit =>
    starting s (emitted r) (store_after r) /\
    session_state (store_after r) = session_state s /\
    resource_cache (store_after r) = resource_cache s /\
    Forall (fun e => is_guard_event e = true) (emitted r) /\
    (forall u, result r = Ok u ->
       exists key,
         secrets s !! "GOOGLE_API_KEY" = Some key /\
         environ (store_after r) !! "GOOGLE_API_KEY" = Some key /\
         In (SetEnviron "GOOGLE_API_KEY" key) (emitted r))).
  change (P (guard s)).
  unfold guard, api_key_setup, secrets_contains, secrets_getitem, load_secrets,
    environ_setitem, set_environ, stop.
  run_cbv.
  repeat run_head; subst P; cbv beta; cbn [emitted store_after result].
  all: guard_context.
  all: split; [ split | split; [ | split; [ | split ] ] ].
  all: try solve [ guard_frame ].
  all: try solve [ guard_calls ].
  all: try solve [ cbn [session_state resource_cache set_environ_store
                          set_secrets_store]; congruence ].
  all: try solve [ forall_events
                     ltac:(first [ reflexivity
                                 | match goal with
                                   | H : Forall (exports _) ?l |- Forall _ ?l =>
                                       eapply Forall_impl;
                                       [ exact H | apply exports_guard_event ]
                                   end ]) ].
  all: intros u Hu; try discriminate Hu.
  all: eexists; split; [ apply secrets_lookup; guard_entries; eassumption | ].
  all: split; [ cbn [environ set_environ_store]; apply lookup_insert_eq | in_events ].
Qed.


Lemma bind_assoc {A B C} (m : M A) (f : A -> M B) (g : B -> M C) s :
  bind (bind m f) g s = bind m (fun a => bind (f a) g) s.
Proof.
  unfold bind. destruct (m s) as [ev1 s1 [ a | e ]]; [ | reflexivity ].
  destruct (f a s1) as [ev2 s2 [ b | e ]]; [ | reflexivity ].
  destruct (g b s2) as [ev3 s3 r]. rewrite app_assoc. reflexivity.
Qed.

(** The startup is the start up to the guard, then the rest. *)
Lemma startup_run s :
  match result (guard s) with
  | Raised e =>
      startup s = mkStep (emitted (guard s)) (store_after (guard s)) (Raised e)
  | Ok _ =>
      let r := startup_rest (store_after (guard s)) in
      startup s = mkStep (emitted (guard s) ++ emitted r) (store_after r) (result r)
  end.
Proof.
  assert (startup s = bind guard (fun _ => startup_rest) s) as ->.
  { unfold startup, guard, startup_rest. rewrite bind_assoc. reflexivity. }
  rewrite bind_unfold. destruct (result (guard s)); reflexivity.
Qed.

Lemma startup_starting : keeps starting startup.
Proof.
  intros s. unfold keeps_at.
  pose proof (startup_run s) as Hrun.
  destruct (guard_facts s) as (Hguard & _).
  destruct (result (guard s)) as [ u | e ].
  - cbv zeta in Hrun. rewrite Hrun. cbn [emitted store_after].
    eapply inv_app; [ exact Hguard | apply startup_rest_starting ].
  - rewrite Hrun. exact Hguard.
Qed.

End GuardFacts.

(** ** How a query ends *)

Section Query.

Context {ext : Externals}.

Lemma handle_query_cases chain q s :
  (answered chain q s (handle_query chain q s) \/ failed s (handle_query chain q s))
  /\ invoked_at_most_once (handle_query chain q s).
Proof.
  set (P := fun r : Step unit =>
              (answered chain q s r \/ failed s r) /\ invoked_at_most_once r).
  change (P (handle_query chain q s)).
  unfold handle_query, guarded_answer, answer_query, call_chain, result_answer,
    chat_message, report_failure, append_chat_history, get_chat_history.
  run_cbv.
  repeat run_head; subst P; cbv beta;
    (split; [ | unfold invoked_at_most_once; cbn [emitted]; count_events ]).
  all: try (right; split; [ reflexivity | ];
            first [ right; eexists; reflexivity
                  | left; cbn [emitted]; solve [in_events] ]).
  left.
  match goal with
  | Hres : invoke_chain _ _ = Ok ?res, Hans : res_answer ?res = Some ?resp,
    Hh : session_state s !! _ = Some ?h,
    Hloop : for_each (result_sources ?res) show_source s = mkStep _ _ (Ok ?u) |- _ =>
      exists res, resp, h;
      pose proof (sources_shown (result_sources res) s) as Hshown;
      rewrite Hloop in Hshown; cbn [emitted result] in Hshown;
      destruct u; specialize (Hshown eq_refl)
  end.
  repeat split; try assumption; cbn [emitted].
  - in_events.
  - simpl. rewrite !List.filter_app, Hshown. simpl. rewrite app_nil_r. reflexivity.
  - not_in_events.
Qed.

Lemma conversation_cases chain submitted s :
  (truthy submitted = true /\
   answered chain (default [] submitted) s (conversation chain submitted s)
   \/ failed s (conversation chain submitted s)
   \/ idle s (conversation chain submitted s))
  /\ invoked_at_most_once (conversation chain submitted s).
Proof.
  pose proof (handle_query_cases chain (default [] submitted) s) as Hq.
  revert Hq.
  set (P := fun r : Step unit =>
              (truthy submitted = true /\ answered chain (default [] submitted) s r
               \/ failed s r \/ idle s r) /\ invoked_at_most_once r).
  intros Hq. change (P (conversation chain submitted s)).
  unfold conversation, replay_history, get_chat_history.
  run_cbv.
  run_head; [ run_head; run_head; [ run_head | ] | ].
  - (* a question was asked *)
    revert Hq.
    destruct (handle_query chain (default [] submitted) s) as [ev2 s2 r2].
    subst P. cbv beta. unfold invoked_at_most_once. cbn [emitted].
    intros [Hq Honce]. split; [ | count_events ].
    destruct Hq as [ Hq | Hq ].
    + left. split; [ reflexivity | ].
      destruct Hq as (res & resp & h' & Hres & Hresp & Hh & Hst & Hr & Hin & Hsrc & Hno).
      exists res, resp, h'. cbn [emitted store_after result] in *.
      repeat split; try assumption.
      * in_events.
      * count_events. exact Hsrc.
      * not_in_events. contradiction.
    + right. left. destruct Hq as [Hst Hq]. cbn [emitted store_after result] in *.
      split; [ exact Hst | ].
      destruct Hq as [ Hq | Hq ]; [ left; in_events | right; exact Hq ].
  - (* nothing was asked *)
    subst P. cbv beta. split; [ | unfold invoked_at_most_once; cbn [emitted]; count_events ].
    right. right.
    match goal with u : unit |- _ => destruct u end.
    repeat split. cbn [emitted]. simpl. rewrite app_nil_r. assumption.
  - (* the replay failed *)
    subst P. cbv beta. split; [ | unfold invoked_at_most_once; cbn [emitted]; count_events ].
    right. left. split; [ reflexivity | ]. right. eexists. reflexivity.
  - (* no chat history in the session *)
    subst P. cbv beta. split; [ | unfold invoked_at_most_once; cbn [emitted]; count_events ].
    right. left. split; [ reflexivity | ]. right. eexists. reflexivity.
Qed.


(** A failed answer leaves the store as it was. *)
Lemma answer_query_raised chain q s e :
  result (answer_query chain q s) = Raised e ->
  store_after (answer_query chain q s) = s.
Proof.
  revert e.
  set (P := fun r : Step unit => forall e, result r = Raised e -> store_after r = s).
  change (P (answer_query chain q s)).
  unfold answer_query, call_chain, result_answer, chat_message,
    append_chat_history, get_chat_history.
  run_cbv.
  repeat run_head; subst P; cbv beta; cbn [result store_after];
    intros e' He'; first [ reflexivity | discriminate He' ].
Qed.


Lemma report_failure_run e s :
  report_failure e s =
  mkStep
    (UI (st_error generic_error_msg) ::
     match ui_fault (st_error generic_error_msg) with
     | Some _ => []
     | None => [UI (st_exception e)]
     end)
    s
    match ui_fault (st_error generic_error_msg) with
    | Some e' => Raised e'
    | None =>
        match ui_fault (st_exception e) with
        | Some e' => Raised e'
        | None => Ok tt
        end
    end.
Proof.
  unfold report_failure. run_cbv.
  destruct (ui_fault (st_error generic_error_msg)); reflexivity.
Qed.

Lemma guarded_answer_raised chain q s e :
  result (answer_query chain q s) = Raised e ->
  store_after (guarded_answer chain q s) = s.
Proof.
  intros He. pose proof (answer_query_raised chain q s e He) as Hs.
  unfold guarded_answer. rewrite try_except_unfold, He.
  destruct (exc_is_Exception e); [ | exact Hs ].
  rewrite report_failure_run. cbn [store_after]. exact Hs.
Qed.

End Query.

(** ** The run as a whole *)

Section Run.

Context {ext : Externals}.

Lemma truthy_default (o : option pystr) :
  truthy o = true -> o = Some (default [] o).
Proof. destruct o as [ [ | c q ] | ]; intros H; try discriminate H; reflexivity. Qed.

Lemma startup_no_generic_error entries :
  ~ startup_event entries (UI (st_error generic_error_msg)).
Proof. intros H. inversion H. Qed.

Lemma startup_no_source_code entries e :
  startup_event entries e -> is_source_code e = false.
Proof. intros H. destruct H; reflexivity. Qed.

Lemma startup_no_invocation entries e :
  startup_event entries e -> is_invocation e = false.
Proof. intros H. destruct H; reflexivity. Qed.

Lemma filter_none {A} (f : A -> bool) (P : A -> Prop) l :
  (forall x, P x -> f x = false) -> Forall P l -> List.filter f l = [].
Proof.
  intros Hf Hall. induction Hall as [ | x l Hx _ IH ]; [ reflexivity | ].
  simpl. rewrite (Hf x Hx). exact IH.
Qed.

Lemma startup_chain_memory s chain :
  result (startup s) = Ok chain -> empty_memory (chain_memory chain).
Proof.
  revert chain.
  set (P := fun r : Step Chain =>
              forall chain, result r = Ok chain -> empty_memory (chain_memory chain)).
  change (P (startup s)).
  unfold startup, api_key_setup, set_environ, stop, load_vector_store,
    cache_resource, load_vector_store_body, HuggingFaceEmbeddings, open_read,
    splitter_split_text, FAISS_from_documents, build_chain,
    ChatGoogleGenerativeAI, page_header, init_chat_history.
  run_cbv.
  repeat run_head; subst P; cbv beta; cbn [result];
    intros chain' Hc; first [ discriminate Hc | injection Hc as <-; split; reflexivity ].
Qed.

(** A run either ends during the startup, or goes on with the conversation
    from the store the startup left. *)
Lemma script_run submitted s :
  match result (startup s) with
  | Raised e =>
      script submitted s = mkStep (emitted (startup s)) (store_after (startup s)) (Raised e)
  | Ok chain =>
      let rc := conversation chain submitted (store_after (startup s)) in
      script submitted s =
      mkStep (emitted (startup s) ++ emitted rc) (store_after rc) (result rc)
  end.
Proof.
  rewrite script_startup_conversation, bind_unfold.
  destruct (result (startup s)); reflexivity.
Qed.

Lemma conversation_error_body submitted body :
  conversation_event submitted (UI (st_error body)) ->
  body = generic_error_msg /\ truthy submitted = true.
Proof. intros H. inversion H. split; [ reflexivity | assumption ]. Qed.


(** The events of a run are startup events followed by conversation events. *)
Lemma script_events submitted s :
  exists ev1 ev2,
    emitted (script submitted s) = ev1 ++ ev2 /\
    Forall (startup_event (secret_entries (secrets_file s))) ev1 /\
    Forall (conversation_event submitted) ev2 /\
    length (List.filter is_invocation ev2) <= 1.
Proof.
  pose proof (script_run submitted s) as Hrun.
  pose proof (startup_starting s) as [_ Hevs].
  pose proof (startup_chain_memory s) as Hmem.
  destruct (result (startup s)) as [ chain | e ].
  - specialize (Hmem chain eq_refl). cbv zeta in Hrun. rewrite Hrun.
    exists (emitted (startup s)),
           (emitted (conversation chain submitted (store_after (startup s)))).
    split; [ reflexivity | ]. split; [ exact Hevs | ]. split.
    + apply (conversation_conversing submitted chain Hmem).
    + apply conversation_cases.
  - rewrite Hrun. exists (emitted (startup s)), [].
    split; [ symmetry; apply app_nil_r | ]. split; [ exact Hevs | ].
    split; [ constructor | simpl; lia ].
Qed.


#[export] Instance calling_invariant chain : Invariant (calling chain).
Proof.
  split; unfold calling.
  - intros s. constructor.
  - intros s1 e1 s2 e2 s3 H1 H2. apply Forall_app. split; assumption.
Qed.

Lemma calling_none chain s s' : calling chain s [] s'.
Proof. constructor. Qed.

Lemma calling_one chain s e s' :
  (forall c q, e = Lib (InvokeChain c q) -> c = chain) -> calling chain s [e] s'.
Proof. intros H. constructor; [ exact H | constructor ]. Qed.

(** The conversation calls no chain but the one it was given. *)
Lemma conversation_calling chain submitted :
  keeps (calling chain) (conversation chain submitted).
Proof.
  intros s.
  unfold conversation, replay_history, get_chat_history, handle_query,
    guarded_answer, answer_query, call_chain, result_answer, chat_message,
    report_failure, append_chat_history, get_chat_history.
  repeat keeps_step;
    try apply calling_none;
    try (apply calling_one; intros c q' Heq; first [ discriminate Heq | congruence ]).
  - apply keeps_at_for_each; [ exact _ | ]. intros [user_msg bot_msg] s' _.
    unfold replay_turn, chat_message.
    repeat keeps_step; apply calling_one; intros c q' Heq; discriminate Heq.
  - apply keeps_at_for_each; [ exact _ | ]. intros doc s' _.
    unfold show_source.
    repeat keeps_step; apply calling_one; intros c q' Heq; discriminate Heq.
Qed.

(** A run is the startup, then conversation events; the conversation
    leaves the cache alone and calls the chain the startup built. *)
Lemma script_after_startup submitted s :
  exists ev2,
    emitted (script submitted s) = emitted (startup s) ++ ev2 /\
    Forall (conversation_event submitted) ev2 /\
    conversation_frame (store_after (startup s)) (store_after (script submitted s)) /\
    (forall chain q, In (Lib (InvokeChain chain q)) ev2 ->
                     result (startup s) = Ok chain) /\
    (forall e, result (startup s) = Raised e ->
               ev2 = [] /\ result (script submitted s) = Raised e).
Proof.
  pose proof (script_run submitted s) as Hrun.
  pose proof (startup_chain_memory s) as Hmem.
  destruct (result (startup s)) as [ chain | e ].
  - specialize (Hmem chain eq_refl). cbv zeta in Hrun. rewrite Hrun.
    cbn [emitted store_after result].
    destruct (conversation_conversing submitted chain Hmem (store_after (startup s)))
      as [Hframe Hevs].
    pose proof (conversation_calling chain submitted (store_after (startup s)))
      as Hcall.
    eexists. split; [ reflexivity | ]. split; [ exact Hevs | ].
    split; [ exact Hframe | ]. split.
    + intros c q Hin. unfold keeps_at, calling in Hcall.
      rewrite Forall_forall in Hcall. apply list_elem_of_In in Hin.
      rewrite (Hcall _ Hin c q eq_refl). reflexivity.
    + intros e He. discriminate He.
  - rewrite Hrun. cbn [emitted store_after result].
    exists []. split; [ symmetry; apply app_nil_r | ]. split; [ constructor | ].
    split; [ apply conversation_frame_refl | ]. split.
    + intros c q [].
    + intros e' [= <-]. split; reflexivity.
Qed.

Lemma startup_not_invocation s chain q :
  ~ In (Lib (InvokeChain chain q)) (emitted (startup s)).
Proof.
  intros Hin. pose proof (startup_starting s) as [_ Hevs].
  rewrite Forall_forall in Hevs. apply list_elem_of_In in Hin.
  pose proof (startup_no_invocation _ _ (Hevs _ Hin)) as H. discriminate H.
Qed.

End Run.

(** * The properties of the program *)

Section Guard.

Context {ext : Externals}.

#[export] Instance keyed_invariant key : Invariant (keyed key).
Proof.
  split; unfold keyed.
  - intros s H. split; [ exact H | constructor ].
  - intros s1 e1 s2 e2 s3 H1 H2 H.
    destruct (H1 H) as [H' F1]. destruct (H2 H') as [H'' F2].
    split; [ exact H'' | apply Forall_app; split; assumption ].
Qed.












End Guard.



Section Startup.

Context {ext : Externals}.

Lemma conversation_no_startup_step submitted e :
  conversation_event submitted e -> is_startup_step e = false.
Proof. intros H. destruct H; reflexivity. Qed.

Lemma conversation_steps chain submitted s :
  empty_memory (chain_memory chain) ->
  List.filter is_startup_step (emitted (conversation chain submitted s)) = [].
Proof.
  intros Hmem.
  destruct (conversation_conversing submitted chain Hmem s) as [_ Hevs].
  induction Hevs as [ | e evs He _ IH ]; [ reflexivity | ].
  simpl. rewrite (conversation_no_startup_step _ _ He). exact IH.
Qed.




(** From the vector store to the chat input, with nothing cached: either
    this ends before anything is cached, or the handbook is read, split,
    embedded and indexed, in this order, and the retriever over the index
    is cached and given to the chain. *)
Lemma startup_rest_cold s :
  resource_cache s = None ->
  (resource_cache (store_after (startup_rest s)) = None /\
   (exists e, result (startup_rest s) = Raised e) /\
   Forall (fun e => needs_vector_store e = false) (emitted (startup_rest s)) /\
   (forall db, ~ In (Lib (BuildIndex db)) (emitted (startup_rest s))) /\
   (files s !! handbook_path = None ->
    In (OpenRead handbook_path) (emitted (startup_rest s)) ->
    result (startup_rest s) = Raised (FileNotFoundError handbook_path)))
  \/
  (exists text vectors rest,
     let embedding := {| model_name := py "all-MiniLM-L6-v2" |} in
     let splitter := RecursiveCharacterTextSplitter 500 60 in
     let docs := map new_Document (split_text splitter text) in
     files s !! handbook_path = Some text /\
     embed_documents embedding (map page_content docs) = Ok vectors /\
     index_fault vectors docs = None /\
     resource_cache (store_after (startup_rest s))
     = Some (handbook_retriever text vectors) /\
     emitted (startup_rest s)
     = [ UI (st_spinner building_msg);
         Lib (NewEmbeddings (py "all-MiniLM-L6-v2"));
         OpenRead handbook_path;
         Lib (SplitText splitter text);
         Lib (EmbedDocuments embedding (map page_content docs));
         Lib (BuildIndex (vectorstore (handbook_retriever text vectors))) ] ++ rest /\
     Forall (fun e => loads_vector_store e = false) rest /\
     (List.filter is_startup_step rest = [] \/
      List.filter is_startup_step rest = [UI (st_chat_input chat_placeholder)]) /\
     (forall chain, result (startup_rest s) = Ok chain ->
                    chain_retriever chain = handbook_retriever text vectors)).
Proof.
  intros Hcold.
  set (P := fun r : Step Chain =>
    (resource_cache (store_after r) = None /\
     (exists e, result r = Raised e) /\
     Forall (fun e => needs_vector_store e = false) (emitted r) /\
     (forall db, ~ In (Lib (BuildIndex db)) (emitted r)) /\
     (files s !! handbook_path = None ->
      In (OpenRead handbook_path) (emitted r) ->
      result r = Raised (FileNotFoundError handbook_path)))
    \/
    (exists text vectors rest,
       let embedding := {| model_name := py "all-MiniLM-L6-v2" |} in
       let splitter := RecursiveCharacterTextSplitter 500 60 in
       let docs := map new_Document (split_text splitter text) in
       files s !! handbook_path = Some text /\
       embed_documents embedding (map page_content docs) = Ok vectors /\
       index_fault vectors docs = None /\
       resource_cache (store_after r) = Some (handbook_retriever text vectors) /\
       emitted r
       = [ UI (st_spinner building_msg);
           Lib (NewEmbeddings (py "all-MiniLM-L6-v2"));
           OpenRead handbook_path;
           Lib (SplitText splitter text);
           Lib (EmbedDocuments embedding (map page_content docs));
           Lib (BuildIndex (vectorstore (handbook_retriever text vectors))) ] ++ rest /\
       Forall (fun e => loads_vector_store e = false) rest /\
       (List.filter is_startup_step rest = [] \/
        List.filter is_startup_step rest = [UI (st_chat_input chat_placeholder)]) /\
       (forall chain, result r = Ok chain ->
                      chain_retriever chain = handbook_retriever text vectors))).
  change (P (startup_rest s)).
  unfold startup_rest, load_vector_store,
    cache_resource, load_vector_store_body, HuggingFaceEmbeddings, open_read,
    splitter_split_text, FAISS_from_documents, build_chain,
    ChatGoogleGenerativeAI, page_header, init_chat_history.
  run_cbv.
  repeat run_head; subst P; cbv beta zeta; cbn [emitted store_after result app];
    cbn [set_environ_store set_session_store set_cache_store resource_cache].
  all: first
    [ right; do 3 eexists;
      split; [ first [ eassumption | reflexivity ] | ];
      split; [ first [ eassumption | reflexivity ] | ];
      split; [ first [ eassumption | reflexivity ] | ];
      split; [ reflexivity | ];
      split; [ reflexivity | ];
      split; [ repeat constructor | ];
      split; [ first [ left; reflexivity | right; reflexivity ] | ];
      intros chain Hc; first [ discriminate Hc | injection Hc as <-; reflexivity ]
    | left; split; [ assumption | ]; split; [ eexists; reflexivity | ];
      split; [ repeat constructor | ];
      split; [ intros db; not_in_events | ];
      intros Hnone Hin;
      first [ reflexivity | congruence | revert Hin; not_in_events ] ].
Qed.



End Startup.


Section Outcome.

Context {ext : Externals}.

Lemma unrecorded_history s r : unrecorded s r -> history (store_after r) = history s.
Proof.
  unfold unrecorded, history.
  intros [ -> | [Hnone ->] ]; [ reflexivity | ].
  rewrite lookup_insert_eq, Hnone. reflexivity.
Qed.

(** A run records one answered question, or leaves the session state as
    it was. *)
Lemma script_outcome submitted s :
  recorded submitted s (script submitted s) \/ unrecorded s (script submitted s).
Proof.
  pose proof (script_run submitted s) as Hrun.
  pose proof (startup_starting s) as [(_ & _ & _ & Hsession) Hevs].
  pose proof (startup_chain_memory s) as Hmem.
  destruct (result (startup s)) as [ chain | e ].
  - specialize (Hmem chain eq_refl). cbv zeta in Hrun. rewrite Hrun.
    destruct (conversation_cases chain submitted (store_after (startup s)))
      as [ [ [Htruthy Hans] | [ [Hst _] | [Hst _] ] ] _ ].
    + left. destruct Hans as (res & resp & h & Hres & Hresp & Hh & Hst & Hr & Hin & Hsrc & Hno).
      exists chain, (default [] submitted), res, resp.
      cbn [emitted store_after result].
      split; [ apply truthy_default, Htruthy | ].
      split; [ exact Hres | ]. split; [ exact Hresp | ]. split; [ exact Hr | ].
      split; [ | split; [ | split ] ].
      * rewrite Hst. cbn [session_state set_session_store]. unfold history.
        destruct Hsession as [ Heq | [Hnone Heq] ]; rewrite Heq in *.
        -- rewrite Hh. reflexivity.
        -- rewrite lookup_insert_eq in Hh. injection Hh as <-.
           rewrite Hnone, insert_insert_eq. reflexivity.
      * apply in_or_app. right. exact Hin.
      * rewrite List.filter_app, Hsrc.
        rewrite (filter_none _ _ _ (startup_no_source_code _) Hevs). reflexivity.
      * intros Hbad. apply in_app_or in Hbad. destruct Hbad as [ Hbad | Hbad ].
        -- rewrite Forall_forall in Hevs. apply list_elem_of_In in Hbad.
           exact (startup_no_generic_error _ (Hevs _ Hbad)).
        -- exact (Hno Hbad).
    + right. unfold unrecorded. cbn [store_after]. rewrite Hst. exact Hsession.
    + right. unfold unrecorded. cbn [store_after]. rewrite Hst. exact Hsession.
  - right. rewrite Hrun. unfold unrecorded. cbn [store_after]. exact Hsession.
Qed.

End Outcome.

Section Conversation.

Context {ext : Externals}.

Lemma recorded_history submitted s r :
  recorded submitted s r ->
  exists q resp,
    submitted = Some q /\ result r = Ok tt /\
    history (store_after r) = history s ++ [(q, resp)] /\
    In (UI (st_markdown (ChatMessage (py "assistant") robot) resp)) (emitted r) /\
    ~ In (UI (st_error generic_error_msg)) (emitted r).
Proof.
  intros (chain & q & res & resp & Hq & _ & _ & Hr & Hst & Hin & _ & Hno).
  exists q, resp. repeat split; try assumption.
  unfold history at 1. rewrite Hst, lookup_insert_eq. reflexivity.
Qed.

(** [C5] A query whose processing raises is not recorded.  Whatever
    exception the body of the [try] raises, the [try] statement leaves the
    store, and so the chat history, as it was.  Over a whole run, the
    history is unchanged, unless the question was answered: then the run
    ended normally, the answer was drawn, no error message was shown, and
    the history grew by exactly that question and that answer.  So a run
    that shows the generic error message, or ends with an exception, leaves
    the history unchanged. *)
Theorem failed_query_not_recorded submitted s :
  (forall chain q s0 e,
     result (answer_query chain q s0) = Raised e ->
     store_after (guarded_answer chain q s0) = s0) /\
  (history (store_after (script submitted s)) = history s \/
   exists q resp,
     submitted = Some q /\
     result (script submitted s) = Ok tt /\
     history (store_after (script submitted s)) = history s ++ [(q, resp)] /\
     In (UI (st_markdown (ChatMessage (py "assistant") robot) resp))
        (emitted (script submitted s)) /\
     ~ In (UI (st_error generic_error_msg)) (emitted (script submitted s))) /\
  (In (UI (st_error generic_error_msg)) (emitted (script submitted s)) \/
   (exists e, result (script submitted s) = Raised e) ->
   history (store_after (script submitted s)) = history s).
Proof.
  split; [ exact guarded_answer_raised | ].
  destruct (script_outcome submitted s) as [ Hrec | Hun ].
  - apply recorded_history in Hrec.
    destruct Hrec as (q & resp & Hq & Hr & Hh & Hin & Hno).
    split.
    + right. exists q, resp. repeat split; assumption.
    + intros [ Hbad | [e He] ]; [ destruct (Hno Hbad) | congruence ].
  - apply unrecorded_history in Hun. split; [ left; exact Hun | ].
    intros _. exact Hun.
Qed.

(** [C4] amended.  The state the script itself keeps is the chat history
    in the session state: a run leaves the session state as it was, or
    creates the empty history when there is none, or appends the question
    and its answer to the history after an answered query. *)
Theorem script_keeps_chat_history submitted s :
  session_state (store_after (script submitted s)) = session_state s \/
  (session_state s !! "chat_history" = None /\
   session_state (store_after (script submitted s))
   = <["chat_history" := []]> (session_state s)) \/
  (exists q resp,
     submitted = Some q /\
     result (script submitted s) = Ok tt /\
     session_state (store_after (script submitted s))
     = <["chat_history" := history s ++ [(q, resp)]]> (session_state s)).
Proof.
  destruct (script_outcome submitted s) as [ Hrec | [ Hun | Hun ] ].
  - right. right.
    destruct Hrec as (chain & q & res & resp & Hq & _ & _ & Hr & Hst & _).
    exists q, resp. repeat split; assumption.
  - left. exact Hun.
  - right. left. exact Hun.
Qed.


End Conversation.

Lemma failed_query_not_recorded_witness :
  result (@answer_query Demo.llm_down Demo.demo_chain Demo.question1 Demo.opened)
  = Raised Demo.TimeoutError /\
  store_after (@guarded_answer Demo.llm_down Demo.demo_chain Demo.question1 Demo.opened)
  = Demo.opened /\
  history (store_after (@script Demo.llm_down (Some Demo.question1) Demo.opened))
  = history Demo.opened.
Proof.
  destruct (@failed_query_not_recorded Demo.llm_down (Some Demo.question1) Demo.opened)
    as (Htry & _ & Hrun).
  split; [ reflexivity | ]. split.
  - exact (Htry _ _ _ _ eq_refl).
  - apply Hrun. left. vm_compute. do 10 right. left. reflexivity.
Defined.

(** [C4] as stated fails: the script keeps state of its own.  In a session
    whose chat history is empty, asking a question leaves a history of one
    turn in the session state. *)
Lemma asking_changes_session_state :
  session_state Demo.opened !! "chat_history" = Some [] /\
  session_state (store_after Demo.first_turn) !! "chat_history"
  = Some [(Demo.question1, py "About " ++ Demo.question1)].
Proof. split; vm_compute; reflexivity. Qed.



Section Memory.

Context {ext : Externals}.

(** Whenever the chain is called, it is called with the submitted question
    and with a memory that holds nothing. *)
Lemma chain_called_with_empty_memory submitted s chain q :
  In (Lib (InvokeChain chain q)) (emitted (script submitted s)) ->
  submitted = Some q /\ forwarded (Lib (InvokeChain chain q)) = Some ([], [], q).
Proof.
  intros Hin.
  destruct (script_events submitted s) as (ev1 & ev2 & Heq & H1 & H2 & _).
  rewrite Heq in Hin. apply in_app_or in Hin.
  rewrite Forall_forall in H1, H2.
  destruct Hin as [ Hin | Hin ]; apply list_elem_of_In in Hin.
  - specialize (H1 _ Hin). inversion H1.
  - specialize (H2 _ Hin). inversion H2 as [ | | | c Htruthy [Hm Hb] | | | | | ]; subst.
    split; [ apply truthy_default, Htruthy | ].
    simpl. rewrite Hm, Hb. reflexivity.
Qed.

End Memory.

(** [C2] fails on the code: the accumulated chat history is not forwarded.
    In a session where a first question has been answered and recorded, the
    chain call for the second question is given a memory without any
    message and without summary. *)
Theorem second_question_forgets_first :
  history (store_after Demo.first_turn)
  = [(Demo.question1, py "About " ++ Demo.question1)] /\
  omap forwarded (emitted Demo.second_turn) = [([], [], Demo.question2)] /\
  result Demo.second_turn = Ok tt.
Proof. split; [ | split ]; vm_compute; reflexivity. Qed.

Section Frame.

Context {ext : Externals}.

Lemma startup_within entries e :
  startup_event entries e -> within_interface entries e.
Proof.
  intros H. destruct H; simpl; auto. eexists. split; eassumption.
Qed.

Lemma conversation_within submitted entries e :
  conversation_event submitted e -> within_interface entries e.
Proof. intros H. destruct H; exact I. Qed.

(** [C8] amended.  Besides the calls into the UI framework and the
    libraries (the hosted model among them), a run reads the handbook file
    and sets environment variables: when the secrets are parsed, every
    top-level string or number of the secrets is written to the environment
    under its key, and the API key is written again by the script.  It
    makes no other call.  It leaves the entries of the secrets and the
    files as they were; every environment variable is as it was or holds
    the text of a secret of its name; and no key of the session state but
    [chat_history] is changed. *)
Theorem external_interface submitted s :
  Forall (within_interface (secret_entries (secrets_file s)))
         (emitted (script submitted s)) /\
  secret_entries (secrets_file (store_after (script submitted s)))
  = secret_entries (secrets_file s) /\
  secrets (store_after (script submitted s)) = secrets s /\
  files (store_after (script submitted s)) = files s /\
  environ_kept_or_secret (secret_entries (secrets_file s))
    (environ s) (environ (store_after (script submitted s))) /\
  (forall k, k <> "chat_history" ->
     session_state (store_after (script submitted s)) !! k = session_state s !! k).
Proof.
  pose proof (startup_starting s) as [Hframe Hevs].
  pose proof (startup_frame_entries _ _ Hframe) as Hentries.
  pose proof (startup_frame_secrets _ _ Hframe) as Hsecrets.
  destruct Hframe as (_ & Hfiles & Henv & Hsess).
  destruct (script_after_startup submitted s)
    as (ev2 & Heq & Hevs2 & (Hsec2 & Hfiles2 & Henv2 & _ & Hsess2) & _).
  split; [ | split; [ | split; [ | split; [ | split ] ] ] ].
  - rewrite Heq. apply Forall_app. split.
    + eapply Forall_impl; [ exact Hevs | ]. apply startup_within.
    + eapply Forall_impl; [ exact Hevs2 | ]. apply conversation_within.
  - rewrite Hsec2. exact Hentries.
  - unfold secrets at 1. rewrite Hsec2. exact Hsecrets.
  - congruence.
  - rewrite Henv2. exact Henv.
  - intros k Hk. rewrite Hsess2 by exact Hk.
    destruct Hsess as [ -> | [_ ->] ]; [ reflexivity | ].
    apply lookup_insert_ne. congruence.
Qed.

End Frame.

(** [C8] as stated fails: opening the page reads a file and writes the
    environment, also for secrets the script never names, and whether the
    file is there decides how the run ends. *)
Lemma page_load_reads_file_and_sets_environ :
  forallb ui_or_library (emitted (@script Demo.healthy None Demo.fresh)) = false /\
  In (OpenRead handbook_path) (emitted (@script Demo.healthy None Demo.fresh)) /\
  In (SetEnviron "GOOGLE_API_KEY" (py "k-123"))
     (emitted (@script Demo.healthy None Demo.fresh)) /\
  result (@script Demo.healthy None Demo.fresh) = Ok tt /\
  result (@script Demo.healthy None Demo.no_file)
  = Raised (FileNotFoundError handbook_path) /\
  environ Demo.more_secrets !! "OTHER_SECRET" = None /\
  environ (store_after (@script Demo.healthy None Demo.more_secrets)) !! "OTHER_SECRET"
  = Some (py "other").
Proof.
  split; [ | split; [ | split; [ | split; [ | split; [ | split ] ] ] ] ].
  - vm_compute. reflexivity.
  - vm_compute. repeat first [ left; reflexivity | right ].
  - vm_compute. repeat first [ left; reflexivity | right ].
  - vm_compute. reflexivity.
  - vm_compute. reflexivity.
  - vm_compute. reflexivity.
  - vm_compute. reflexivity.
Qed.

(** ** [strip] *)

Section Strip.

Lemma lstrip_split s : exists a, s = a ++ lstrip s /\ all_space a.
Proof.
  induction s as [ | c s (a & Heq & Ha) ]; [ exists []; split; [ reflexivity | constructor ] | ].
  simpl. destruct (py_isspace c) eqn:Hc.
  - exists (c :: a). split; [ simpl; f_equal; exact Heq | constructor; assumption ].
  - exists []. split; [ reflexivity | constructor ].
Qed.

Lemma lstrip_head s c t : lstrip s = c :: t -> py_isspace c = false.
Proof.
  induction s as [ | c' s IH ]; [ discriminate | ].
  simpl. destruct (py_isspace c') eqn:Hc; [ exact IH | ].
  intros [= <- _]. exact Hc.
Qed.

Lemma lstrip_all_space s : all_space s -> lstrip s = [].
Proof.
  intros H. induction H as [ | c s Hc _ IH ]; [ reflexivity | ].
  simpl. rewrite Hc. exact IH.
Qed.

Lemma lstrip_app s c t :
  py_isspace c = false -> lstrip (s ++ c :: t) = lstrip s ++ c :: t.
Proof.
  intros Hc. induction s as [ | c' s IH ]; simpl; [ rewrite Hc; reflexivity | ].
  destruct (py_isspace c'); [ exact IH | reflexivity ].
Qed.

Lemma all_space_rev s : all_space s -> all_space (rev s).
Proof.
  unfold all_space. rewrite !Forall_forall. intros H c Hc.
  apply H. apply list_elem_of_In. apply list_elem_of_In, in_rev in Hc. exact Hc.
Qed.

(** [strip] removes the whitespace at both ends, and nothing else. *)
Lemma strip_split s :
  exists before after,
    s = before ++ strip s ++ after /\ all_space before /\ all_space after.
Proof.
  destruct (lstrip_split s) as (a & Hs & Ha).
  destruct (lstrip_split (rev (lstrip s))) as (b & Hb & Hspace).
  exists a, (rev b). split; [ | split; [ exact Ha | apply all_space_rev, Hspace ] ].
  unfold strip, rstrip. rewrite <- rev_app_distr, <- Hb, rev_involutive.
  exact Hs.
Qed.

Lemma strip_head s c t : strip s = c :: t -> py_isspace c = false.
Proof.
  unfold strip, rstrip.
  destruct (lstrip s) as [ | c0 l ] eqn:Hl; [ discriminate | ].
  pose proof (lstrip_head _ _ _ Hl) as Hc0.
  simpl rev. rewrite (lstrip_app _ _ _ Hc0), rev_app_distr. simpl.
  intros [= <- _]. exact Hc0.
Qed.

Lemma strip_last s t c : strip s = t ++ [c] -> py_isspace c = false.
Proof.
  unfold strip, rstrip. intros H.
  apply (f_equal (@rev codepoint)) in H.
  rewrite rev_involutive, rev_app_distr in H. simpl in H.
  exact (lstrip_head _ _ _ H).
Qed.

Lemma strip_all_space s : all_space s -> strip s = [].
Proof.
  intros H. unfold strip, rstrip. rewrite (lstrip_all_space _ H). reflexivity.
Qed.

End Strip.

Section Sources.

Context {ext : Externals}.

Lemma source_excerpt_length doc : length (source_excerpt doc) <= 703.
Proof.
  unfold source_excerpt, slice_to. rewrite length_app, length_take.
  change (length (py "...")) with 3. lia.
Qed.

Lemma source_excerpt_short doc :
  length (strip (page_content doc)) < 700 ->
  source_excerpt doc = strip (page_content doc) ++ py "...".
Proof.
  intros Hshort. unfold source_excerpt, slice_to.
  rewrite take_ge by lia. reflexivity.
Qed.

(** What the loop over the sources shows as code are excerpts of its
    documents. *)
Lemma sources_loop_code docs s parent body language :
  In (UI (st_code parent body language)) (emitted (for_each docs show_source s)) ->
  exists doc,
    In doc docs /\ body = source_excerpt doc /\
    language = "markdown" /\ parent = Expander sources_label false.
Proof.
  induction docs as [ | doc docs IH ]; [ intros [] | ].
  simpl for_each. rewrite bind_unfold, show_source_run.
  unfold source_heading_event, source_code_event, sources_expander.
  destruct (ui_fault (st_markdown _ _)); cbn [emitted result store_after].
  - intros [ H | [] ]. discriminate H.
  - destruct (ui_fault (st_code _ _ _)); cbn [emitted result store_after].
    + intros [ H | [ H | [] ] ]; [ discriminate H | ].
      injection H as <- <- <-. exists doc. repeat split. left. reflexivity.
    + intros H. apply in_app_or in H. destruct H as [ [ H | [ H | [] ] ] | H ].
      * discriminate H.
      * injection H as <- <- <-. exists doc. repeat split. left. reflexivity.
      * destruct (IH H) as (doc' & Hdoc & Hrest).
        exists doc'. split; [ right; exact Hdoc | exact Hrest ].
Qed.

(** The code a query shows are excerpts of the sources its own chain call
    returned; and when the store has changed, the chain was called. *)
Lemma handle_query_sources chain q s :
  (forall parent body language,
     In (UI (st_code parent body language)) (emitted (handle_query chain q s)) ->
     In (Lib (InvokeChain chain q)) (emitted (handle_query chain q s)) /\
     exists res doc,
       invoke_chain chain q = Ok res /\ In doc (result_sources res) /\
       body = source_excerpt doc /\
       language = "markdown" /\ parent = Expander sources_label false) /\
  (store_after (handle_query chain q s) <> s ->
   In (Lib (InvokeChain chain q)) (emitted (handle_query chain q s))).
Proof.
  set (P := fun r : Step unit =>
    (forall parent body language,
       In (UI (st_code parent body language)) (emitted r) ->
       In (Lib (InvokeChain chain q)) (emitted r) /\
       exists res doc,
         invoke_chain chain q = Ok res /\ In doc (result_sources res) /\
         body = source_excerpt doc /\
         language = "markdown" /\ parent = Expander sources_label false) /\
    (store_after r <> s -> In (Lib (InvokeChain chain q)) (emitted r))).
  change (P (handle_query chain q s)).
  unfold handle_query, guarded_answer, answer_query, call_chain, result_answer,
    chat_message, report_failure, append_chat_history, get_chat_history.
  run_cbv.
  repeat run_head; subst P; cbv beta; cbn [emitted store_after].
  all: split;
    [ | intros Hchanged; first [ destruct (Hchanged eq_refl) | in_events ] ].
  all: intros parent body language Hin.
  all: try solve [ exfalso; revert Hin; not_in_events ].
  all: split; [ in_events | ].
  all: match goal with
       | Hres : invoke_chain _ _ = Ok ?res,
         Hloop : for_each (result_sources ?res) show_source ?st = _ |- _ =>
           exists res;
           pose proof (sources_loop_code (result_sources res) st parent body language)
             as Hcode;
           rewrite Hloop in Hcode; cbn [emitted] in Hcode
       end.
  all: simpl in Hin; rewrite ?in_app_iff in Hin; simpl in Hin.
  all: repeat match goal with
              | H : _ \/ _ |- _ => destruct H as [ H | H ]
              | H : False |- _ => destruct H
              | H : UI _ = UI _ |- _ => discriminate H
              | H : Lib _ = UI _ |- _ => discriminate H
              end.
  all: destruct (Hcode Hin) as (doc & Hdoc & Hrest).
  all: exists doc; split; [ first [ assumption | reflexivity ] | ];
    split; [ exact Hdoc | exact Hrest ].
Qed.

Lemma conversation_sources chain submitted s :
  (forall parent body language,
     In (UI (st_code parent body language)) (emitted (conversation chain submitted s)) ->
     truthy submitted = true /\
     In (Lib (InvokeChain chain (default [] submitted)))
        (emitted (conversation chain submitted s)) /\
     exists res doc,
       invoke_chain chain (default [] submitted) = Ok res /\
       In doc (result_sources res) /\
       body = source_excerpt doc /\
       language = "markdown" /\ parent = Expander sources_label false) /\
  (store_after (conversation chain submitted s) <> s ->
   truthy submitted = true /\
   In (Lib (InvokeChain chain (default [] submitted)))
      (emitted (conversation chain submitted s))).
Proof.
  pose proof (handle_query_sources chain (default [] submitted) s) as Hq.
  revert Hq.
  set (P := fun r : Step unit =>
    (forall parent body language,
       In (UI (st_code parent body language)) (emitted r) ->
       truthy submitted = true /\
       In (Lib (InvokeChain chain (default [] submitted))) (emitted r) /\
       exists res doc,
         invoke_chain chain (default [] submitted) = Ok res /\
         In doc (result_sources res) /\
         body = source_excerpt doc /\
         language = "markdown" /\ parent = Expander sources_label false) /\
    (store_after r <> s ->
     truthy submitted = true /\
     In (Lib (InvokeChain chain (default [] submitted))) (emitted r))).
  intros Hq. change (P (conversation chain submitted s)).
  unfold conversation, replay_history, get_chat_history.
  run_cbv.
  run_head; [ run_head; run_head; [ run_head | ] | ].
  - (* a question was asked *)
    revert Hq.
    destruct (handle_query chain (default [] submitted) s) as [ev2 s2 r2].
    subst P. cbv beta. cbn [emitted store_after].
    intros [Hcode Hchanged]. split.
    + intros parent body language Hin.
      assert (In (UI (st_code parent body language)) ev2) as Hin2.
      { apply in_app_or in Hin. destruct Hin as [ Hin | Hin ]; [ | exact Hin ].
        exfalso. revert Hin. not_in_events. }
      destruct (Hcode _ _ _ Hin2) as (Hcall & Hrest).
      split; [ reflexivity | ]. split; [ apply in_or_app; right; exact Hcall | ].
      exact Hrest.
    + intros Hne. split; [ reflexivity | ].
      apply in_or_app. right. exact (Hchanged Hne).
  - subst P. cbv beta. cbn [emitted store_after]. split.
    + intros parent body language Hin. exfalso. revert Hin. not_in_events.
    + intros Hne. destruct (Hne eq_refl).
  - subst P. cbv beta. cbn [emitted store_after]. split.
    + intros parent body language Hin. exfalso. revert Hin. not_in_events.
    + intros Hne. destruct (Hne eq_refl).
  - subst P. cbv beta. cbn [emitted store_after]. split.
    + intros parent body language Hin. exfalso. revert Hin. not_in_events.
    + intros Hne. destruct (Hne eq_refl).
Qed.

(** [C9] The sources of an answer.  Whatever a run shows as code, in the
    expander of the sources, is the excerpt of a source document that the
    run's own chain call returned for the submitted question.  The page
    content of that document is some whitespace, a content that neither
    starts nor ends with whitespace, and whitespace again; what is shown is
    the first 700 code points of that content, followed by three dots; the
    dots are appended also when the content is shorter than 700.  It is
    shown as markdown code.  When a run records an answer, it has called
    the chain on the submitted question and shown one such excerpt for
    every source document of the result, in order. *)
Theorem source_excerpt_shown submitted s :
  (forall parent body language,
     In (UI (st_code parent body language)) (emitted (script submitted s)) ->
     exists chain q res doc before content after,
       submitted = Some q /\
       In (Lib (InvokeChain chain q)) (emitted (script submitted s)) /\
       invoke_chain chain q = Ok res /\
       In doc (result_sources res) /\
       page_content doc = before ++ content ++ after /\
       all_space before /\ all_space after /\
       (forall c rest, content = c :: rest -> py_isspace c = false) /\
       (forall rest c, content = rest ++ [c] -> py_isspace c = false) /\
       body = take 700 content ++ py "..." /\
       length body <= 703 /\
       (length content < 700 -> body = content ++ py "...") /\
       language = "markdown" /\
       parent = Expander sources_label false) /\
  (history (store_after (script submitted s)) <> history s ->
   exists chain q res,
     submitted = Some q /\
     In (Lib (InvokeChain chain q)) (emitted (script submitted s)) /\
     invoke_chain chain q = Ok res /\
     List.filter is_source_code (emitted (script submitted s))
     = map source_code_event (result_sources res)).
Proof.
  pose proof (script_run submitted s) as Hrun.
  pose proof (startup_starting s) as [Hframe Hevs].
  assert (history (store_after (startup s)) = history s) as Hhist.
  { destruct Hframe as (_ & _ & _ & Hsession). unfold history.
    destruct Hsession as [ -> | [Hnone ->] ]; [ reflexivity | ].
    rewrite lookup_insert_eq, Hnone. reflexivity. }
  destruct (result (startup s)) as [ chain | e ].
  - cbv zeta in Hrun. rewrite Hrun. cbn [emitted store_after].
    destruct (conversation_sources chain submitted (store_after (startup s)))
      as [Hcode Hchanged].
    split.
    + intros parent body language Hin.
      apply in_app_or in Hin. destruct Hin as [ Hin | Hin ].
      { rewrite Forall_forall in Hevs. apply list_elem_of_In in Hin.
        specialize (Hevs _ Hin). inversion Hevs. }
      destruct (Hcode _ _ _ Hin)
        as (Htruthy & Hcall & res & doc & Hres & Hdoc & -> & -> & ->).
      destruct (strip_split (page_content doc)) as (before & after & Heq & Hb & Ha).
      exists chain, (default [] submitted), res, doc,
        before, (strip (page_content doc)), after.
      split; [ apply truthy_default, Htruthy | ].
      split; [ apply in_or_app; right; exact Hcall | ].
      split; [ exact Hres | ]. split; [ exact Hdoc | ].
      split; [ exact Heq | ]. split; [ exact Hb | ]. split; [ exact Ha | ].
      split; [ apply strip_head | ]. split; [ apply strip_last | ].
      split; [ reflexivity | ]. split; [ apply source_excerpt_length | ].
      split; [ apply source_excerpt_short | ]. split; reflexivity.
    + intros Hne.
      assert (store_after (conversation chain submitted (store_after (startup s)))
              <> store_after (startup s)) as Hst.
      { intros Heq. apply Hne. rewrite Heq. exact Hhist. }
      destruct (Hchanged Hst) as [Htruthy Hcall].
      destruct (conversation_cases chain submitted (store_after (startup s)))
        as [ [ [_ Hans] | [ [Hsame _] | [Hsame _] ] ] _ ];
        [ | destruct (Hst Hsame) | destruct (Hst Hsame) ].
      destruct Hans as (res & resp & h & Hres & _ & _ & _ & _ & _ & Hsrc & _).
      exists chain, (default [] submitted), res.
      split; [ apply truthy_default, Htruthy | ].
      split; [ apply in_or_app; right; exact Hcall | ].
      split; [ exact Hres | ].
      rewrite List.filter_app, Hsrc.
      rewrite (filter_none _ _ _ (startup_no_source_code _) Hevs). reflexivity.
  - rewrite Hrun. cbn [emitted store_after]. split.
    + intros parent body language Hin.
      rewrite Forall_forall in Hevs. apply list_elem_of_In in Hin.
      specialize (Hevs _ Hin). inversion Hevs.
    + intros Hne. destruct (Hne Hhist).
Qed.

End Sources.

Lemma source_excerpt_shown_witness :
  exists chain res doc before content after,
    In (Lib (InvokeChain chain Demo.question1))
       (emitted (@script Demo.healthy (Some Demo.question1) Demo.opened)) /\
    @invoke_chain Demo.healthy chain Demo.question1 = Ok res /\
    In doc (result_sources res) /\
    page_content doc = before ++ content ++ after /\
    all_space before /\ all_space after /\
    py "GitLab is all remote...." = take 700 content ++ py "...".
Proof.
  destruct (@source_excerpt_shown Demo.healthy (Some Demo.question1) Demo.opened)
    as [Hshown _].
  destruct (Hshown (Expander sources_label false)
                   (py "GitLab is all remote....") "markdown")
    as (chain & q & res & doc & before & content & after
        & Hq & Hcall & Hres & Hdoc & Hsplit & Hb & Ha & _ & _ & Hbody & _).
  - vm_compute. repeat first [ left; reflexivity | right ].
  - injection Hq as <-.
    exists chain, res, doc, before, content, after.
    repeat split; assumption.
Defined.

(** * Further properties: the cache, the chain, the page and the session *)

(** ** The vector store and its cache (lines 29-48) *)

Section Cache.

Context {ext : Externals}.

Lemma conversation_no_loading submitted e :
  conversation_event submitted e -> loads_vector_store e = false.
Proof. intros H. destruct H; reflexivity. Qed.

Lemma no_loading_not_in evs e :
  Forall (fun e => loads_vector_store e = false) evs ->
  loads_vector_store e = true -> ~ In e evs.
Proof.
  intros Hall He Hin. rewrite Forall_forall in Hall.
  apply list_elem_of_In in Hin. rewrite (Hall _ Hin) in He. discriminate.
Qed.

Lemma guard_event_no_loading e :
  is_guard_event e = true -> loads_vector_store e = false.
Proof. destruct e as [ [] | | | ]; simpl; congruence. Qed.

Lemma guard_event_no_need e :
  is_guard_event e = true -> needs_vector_store e = false.
Proof. destruct e as [ [] | | | ]; simpl; congruence. Qed.

Lemma guard_events_not_in (f : Event -> bool) evs e :
  Forall (fun e => is_guard_event e = true) evs ->
  (forall e, is_guard_event e = true -> f e = false) ->
  f e = true -> ~ In e evs.
Proof.
  intros Hall Hf He Hin. rewrite Forall_forall in Hall.
  apply list_elem_of_In in Hin. rewrite (Hf _ (Hall _ Hin)) in He. discriminate.
Qed.

(** With a cached retriever the rest of the startup builds nothing. *)
Lemma startup_rest_warm s r0 :
  resource_cache s = Some r0 ->
  Forall (fun e => loads_vector_store e = false) (emitted (startup_rest s)) /\
  ~ In (UI (st_spinner building_msg)) (emitted (startup_rest s)) /\
  resource_cache (store_after (startup_rest s)) = Some r0.
Proof.
  intros Hwarm.
  set (P := fun r : Step Chain =>
              Forall (fun e => loads_vector_store e = false) (emitted r) /\
              ~ In (UI (st_spinner building_msg)) (emitted r) /\
              resource_cache (store_after r) = Some r0).
  change (P (startup_rest s)).
  unfold startup_rest, load_vector_store,
    cache_resource, load_vector_store_body, HuggingFaceEmbeddings, open_read,
    splitter_split_text, FAISS_from_documents, build_chain,
    ChatGoogleGenerativeAI, page_header, init_chat_history.
  run_cbv.
  repeat run_head; subst P; cbv beta; cbn [emitted store_after app];
    cbn [set_environ_store set_session_store set_cache_store resource_cache];
    (split; [ repeat constructor | split; [ not_in_events | assumption ] ]).
Qed.

(** With a cached retriever the startup builds nothing. *)
Lemma startup_warm s r0 :
  resource_cache s = Some r0 ->
  Forall (fun e => loads_vector_store e = false) (emitted (startup s)) /\
  ~ In (UI (st_spinner building_msg)) (emitted (startup s)) /\
  resource_cache (store_after (startup s)) = Some r0.
Proof.
  intros Hwarm.
  pose proof (startup_run s) as Hrun.
  destruct (guard_facts s) as (_ & _ & Hcache & Hguard & _).
  assert (Hload : Forall (fun e => loads_vector_store e = false) (emitted (guard s))).
  { eapply Forall_impl; [ exact Hguard | ]. apply guard_event_no_loading. }
  assert (Hspin : ~ In (UI (st_spinner building_msg)) (emitted (guard s))).
  { intros H. rewrite Forall_forall in Hguard. apply list_elem_of_In in H.
    specialize (Hguard _ H). discriminate Hguard. }
  rewrite <- Hcache in Hwarm.
  destruct (result (guard s)) as [ u | e ].
  - cbv zeta in Hrun. rewrite Hrun. cbn [emitted store_after result].
    destruct (startup_rest_warm _ r0 Hwarm) as (Hload' & Hspin' & Hcache').
    split; [ apply Forall_app; split; assumption | ].
    split; [ | exact Hcache' ].
    intros H. apply in_app_or in H. destruct H as [ H | H ]; tauto.
  - rewrite Hrun. cbn [emitted store_after result].
    split; [ exact Hload | ]. split; [ exact Hspin | exact Hwarm ].
Qed.

(** Without one, the startup either ends before anything is cached, or
    caches the retriever over the chunks of the handbook. *)
Lemma startup_cold s :
  resource_cache s = None ->
  (resource_cache (store_after (startup s)) = None /\
   (exists e, result (startup s) = Raised e) /\
   Forall (fun e => needs_vector_store e = false) (emitted (startup s)) /\
   (forall db, ~ In (Lib (BuildIndex db)) (emitted (startup s))) /\
   (files s !! handbook_path = None ->
    In (OpenRead handbook_path) (emitted (startup s)) ->
    result (startup s) = Raised (FileNotFoundError handbook_path)))
  \/
  (exists text vectors,
     let embedding := {| model_name := py "all-MiniLM-L6-v2" |} in
     let splitter := RecursiveCharacterTextSplitter 500 60 in
     let docs := map new_Document (split_text splitter text) in
     files s !! handbook_path = Some text /\
     embed_documents embedding (map page_content docs) = Ok vectors /\
     resource_cache (store_after (startup s))
     = Some (handbook_retriever text vectors) /\
     List.filter loads_vector_store (emitted (startup s))
     = [ Lib (NewEmbeddings (py "all-MiniLM-L6-v2"));
         OpenRead handbook_path;
         Lib (SplitText splitter text);
         Lib (EmbedDocuments embedding (map page_content docs));
         Lib (BuildIndex (vectorstore (handbook_retriever text vectors))) ]).
Proof.
  intros Hcold.
  pose proof (startup_run s) as Hrun.
  destruct (guard_facts s) as ([(_ & Hfiles & _) _] & _ & Hcache & Hguard & _).
  assert (Hneed : Forall (fun e => needs_vector_store e = false) (emitted (guard s))).
  { eapply Forall_impl; [ exact Hguard | ]. apply guard_event_no_need. }
  assert (Hnone : List.filter loads_vector_store (emitted (guard s)) = [])
    by exact (filter_none _ _ _ guard_event_no_loading Hguard).
  assert (Hout : forall e, loads_vector_store e = true -> ~ In e (emitted (guard s))).
  { intros e He. apply (guard_events_not_in loads_vector_store); try assumption.
    apply guard_event_no_loading. }
  rewrite <- Hcache in Hcold.
  destruct (result (guard s)) as [ u | e ].
  - cbv zeta in Hrun. rewrite Hrun. cbn [emitted store_after result].
    destruct (startup_rest_cold _ Hcold)
      as [ (Hnot & Hraised & Hneeds & Hbuild & Hmissing)
         | (text & vectors & rest & Hfile & Hemb & _ & Hcached & Hev & Hrest & _) ].
    + left. split; [ exact Hnot | ]. split; [ exact Hraised | ].
      split; [ apply Forall_app; split; assumption | ].
      split.
      * intros db H. apply in_app_or in H. destruct H as [ H | H ].
        -- exact (Hout (Lib (BuildIndex db)) eq_refl H).
        -- exact (Hbuild db H).
      * intros Hno H. apply in_app_or in H. destruct H as [ H | H ].
        -- destruct (Hout (OpenRead handbook_path) eq_refl H).
        -- apply Hmissing; [ rewrite Hfiles; exact Hno | exact H ].
    + right. exists text, vectors. cbv zeta in *.
      rewrite Hfiles in Hfile.
      split; [ exact Hfile | ]. split; [ exact Hemb | ]. split; [ exact Hcached | ].
      rewrite List.filter_app, Hnone, Hev, List.filter_app.
      rewrite (filter_none _ (fun e => loads_vector_store e = false) rest
                 (fun e H => H) Hrest).
      reflexivity.
  - left. rewrite Hrun. cbn [emitted store_after result].
    split; [ exact Hcold | ]. split; [ exists e; reflexivity | ].
    split; [ exact Hneed | ]. split.
    + intros db. exact (Hout (Lib (BuildIndex db)) eq_refl).
    + intros _ H. destruct (Hout (OpenRead handbook_path) eq_refl H).
Qed.

(** A chain that the rest of the startup hands on is built with the key
    of the environment and the retriever that is in the cache by then. *)
Lemma startup_rest_chain s chain :
  result (startup_rest s) = Ok chain ->
  exists retriever,
    resource_cache (store_after (startup_rest s)) = Some retriever /\
    chain = configured_chain (environ s !! "GOOGLE_API_KEY") retriever.
Proof.
  revert chain.
  set (P := fun r : Step Chain =>
              forall chain, result r = Ok chain ->
              exists retriever,
                resource_cache (store_after r) = Some retriever /\
                chain = configured_chain (environ s !! "GOOGLE_API_KEY") retriever).
  change (P (startup_rest s)).
  unfold startup_rest, load_vector_store,
    cache_resource, load_vector_store_body, HuggingFaceEmbeddings, open_read,
    splitter_split_text, FAISS_from_documents, build_chain,
    ChatGoogleGenerativeAI, page_header, init_chat_history.
  run_cbv.
  repeat run_head; subst P; cbv beta; cbn [emitted store_after result];
    cbn [set_environ_store set_session_store set_cache_store resource_cache environ];
    intros chain' Hc; try discriminate Hc; injection Hc as <-;
    eexists; (split; [ first [ eassumption | reflexivity ] | ]);
    reflexivity.
Qed.

(** A chain that the startup hands on is built from the key of the secrets
    and the retriever that is in the cache by then. *)
Lemma startup_chain s chain :
  result (startup s) = Ok chain ->
  exists key retriever,
    secrets s !! "GOOGLE_API_KEY" = Some key /\
    resource_cache (store_after (startup s)) = Some retriever /\
    chain = configured_chain (Some key) retriever.
Proof.
  pose proof (startup_run s) as Hrun.
  destruct (guard_facts s) as (_ & _ & _ & _ & Hok).
  destruct (result (guard s)) as [ u | e ].
  - cbv zeta in Hrun. rewrite Hrun. cbn [emitted store_after result].
    intros Hc. destruct (Hok u eq_refl) as (key & Hkey & Henv & _).
    destruct (startup_rest_chain _ chain Hc) as (retriever & Hcache & Hchain).
    exists key, retriever. rewrite Henv in Hchain.
    split; [ exact Hkey | ]. split; [ exact Hcache | exact Hchain ].
  - rewrite Hrun. cbn [result]. intros Hc. discriminate Hc.
Qed.

End Cache.

(** ** The chain that answers (lines 53-100, 134) *)

Section ChainCalls.

Context {ext : Externals}.

(** [X1] Every call of the chain is a call of the chain of lines 53-100:
    the model gemini-1.5-flash at temperature 0.3 with the API key of the
    secrets, a new and empty summary memory, the prompt of lines 72-89,
    source documents returned, the answer under the key [answer]; its
    retriever is the one the resource cache holds at the end of the run;
    and its question is the non-empty text the chat input returned. *)
Theorem chain_call_configured submitted s chain q :
  In (Lib (InvokeChain chain q)) (emitted (script submitted s)) ->
  exists key retriever,
    secrets s !! "GOOGLE_API_KEY" = Some key /\
    resource_cache (store_after (script submitted s)) = Some retriever /\
    chain = configured_chain (Some key) retriever /\
    submitted = Some q /\ q <> [].
Proof.
  intros Hin.
  destruct (script_after_startup submitted s)
    as (ev2 & Heq & Hevs & (_ & _ & _ & Hcache & _) & Hcall & _).
  rewrite Heq in Hin. apply in_app_or in Hin.
  destruct Hin as [ Hin | Hin ]; [ destruct (startup_not_invocation _ _ _ Hin) | ].
  destruct (startup_chain s chain (Hcall _ _ Hin)) as (key & r & Hkey & Hr & Hchain).
  exists key, r. split; [ exact Hkey | ]. split; [ congruence | ].
  split; [ exact Hchain | ].
  rewrite Forall_forall in Hevs. apply list_elem_of_In in Hin.
  specialize (Hevs _ Hin). inversion Hevs as [ | | | c Htruthy _ | | | | | ]; subst.
  destruct submitted as [ [ | c0 q0 ] | ]; try discriminate Htruthy.
  split; [ reflexivity | discriminate ].
Qed.

(** [X2] A warm cache skips the loading.  When the resource cache holds a
    retriever at the start of a run, the run creates no embedding model,
    opens no file, splits and embeds nothing, builds no index and shows no
    building spinner; the cache still holds that retriever at the end, and
    every chain call searches it.  So the handbook file is not needed any
    more once the cache is filled. *)
Theorem warm_cache_skips_loading submitted s r0 :
  resource_cache s = Some r0 ->
  Forall (fun e => loads_vector_store e = false) (emitted (script submitted s)) /\
  ~ In (UI (st_spinner building_msg)) (emitted (script submitted s)) /\
  resource_cache (store_after (script submitted s)) = Some r0 /\
  (forall chain q,
     In (Lib (InvokeChain chain q)) (emitted (script submitted s)) ->
     chain_retriever chain = r0).
Proof.
  intros Hwarm.
  destruct (startup_warm s r0 Hwarm) as (Hload & Hspin & Hcache).
  destruct (script_after_startup submitted s)
    as (ev2 & Heq & Hevs & (_ & _ & _ & Hsame & _) & Hcall & _).
  rewrite Heq. split; [ | split; [ | split ] ].
  - apply Forall_app. split; [ exact Hload | ].
    eapply Forall_impl; [ exact Hevs | ]. apply conversation_no_loading.
  - intros Hin. apply in_app_or in Hin. destruct Hin as [ Hin | Hin ].
    + exact (Hspin Hin).
    + rewrite Forall_forall in Hevs. apply list_elem_of_In in Hin.
      specialize (Hevs _ Hin). inversion Hevs.
  - congruence.
  - intros chain q Hin. apply in_app_or in Hin.
    destruct Hin as [ Hin | Hin ]; [ destruct (startup_not_invocation _ _ _ Hin) | ].
    destruct (startup_chain s chain (Hcall _ _ Hin)) as (key & r & _ & Hr & ->).
    rewrite Hcache in Hr. injection Hr as <-. reflexivity.
Qed.

End ChainCalls.

Section ColdCache.

Context {ext : Externals}.

Lemma conversation_not_loading submitted ev2 :
  Forall (conversation_event submitted) ev2 ->
  List.filter loads_vector_store ev2 = [].
Proof. apply filter_none, conversation_no_loading. Qed.

Lemma conversation_needs_startup submitted s e :
  result (startup s) = Raised e ->
  emitted (script submitted s) = emitted (startup s) /\
  store_after (script submitted s) = store_after (startup s) /\
  result (script submitted s) = Raised e.
Proof.
  intros He. pose proof (script_run submitted s) as Hrun.
  rewrite He in Hrun. rewrite Hrun. repeat split.
Qed.

(** [X3] A cold cache is filled from the handbook, or not at all.  When
    the resource cache is empty at the start of a run, then either the run
    ends with an exception, the cache is still empty, and no chat model was
    created, no chat input offered and no chain called; or the handbook
    file was read, and the cache holds the retriever (mmr, k = 8,
    fetch_k = 18) over the index of its chunks (size 500, overlap 60)
    embedded with all-MiniLM-L6-v2, and the run made each of the five
    loading calls exactly once, in the order of lines 31-42. *)
Theorem cold_cache_builds_vector_store submitted s :
  resource_cache s = None ->
  (resource_cache (store_after (script submitted s)) = None /\
   (exists e, result (script submitted s) = Raised e) /\
   Forall (fun e => needs_vector_store e = false) (emitted (script submitted s)))
  \/
  (exists text vectors,
     let embedding := {| model_name := py "all-MiniLM-L6-v2" |} in
     let splitter := RecursiveCharacterTextSplitter 500 60 in
     let docs := map new_Document (split_text splitter text) in
     files s !! handbook_path = Some text /\
     embed_documents embedding (map page_content docs) = Ok vectors /\
     resource_cache (store_after (script submitted s))
     = Some (handbook_retriever text vectors) /\
     List.filter loads_vector_store (emitted (script submitted s))
     = [ Lib (NewEmbeddings (py "all-MiniLM-L6-v2"));
         OpenRead handbook_path;
         Lib (SplitText splitter text);
         Lib (EmbedDocuments embedding (map page_content docs));
         Lib (BuildIndex (vectorstore (handbook_retriever text vectors))) ]).
Proof.
  intros Hcold.
  destruct (startup_cold s Hcold)
    as [ (Hnone & (e & He) & Hneeds & _) | (text & vectors & Hfile & Hemb & Hcache & Hload) ].
  - left. destruct (conversation_needs_startup submitted s e He) as (-> & -> & ->).
    split; [ exact Hnone | ]. split; [ exists e; reflexivity | exact Hneeds ].
  - right. exists text, vectors. cbv zeta in *.
    destruct (script_after_startup submitted s)
      as (ev2 & Heq & Hevs & (_ & _ & _ & Hsame & _) & _).
    split; [ exact Hfile | ]. split; [ exact Hemb | ]. split; [ congruence | ].
    rewrite Heq, List.filter_app, Hload,
      (conversation_not_loading _ _ Hevs), app_nil_r.
    reflexivity.
Qed.

(** [X4] A missing handbook file ends the run.  With an empty cache and no
    file at the handbook path, the run ends with an exception; when it got
    as far as opening the file, the exception is the [FileNotFoundError] of
    that path.  Nothing is cached and the files are as before, so the next
    run tries again; nothing is split, embedded or indexed, no chat model
    is created, no chat input is offered and no chain is called. *)
Theorem missing_handbook_file submitted s :
  resource_cache s = None ->
  files s !! handbook_path = None ->
  (exists e, result (script submitted s) = Raised e) /\
  (In (OpenRead handbook_path) (emitted (script submitted s)) ->
   result (script submitted s) = Raised (FileNotFoundError handbook_path)) /\
  resource_cache (store_after (script submitted s)) = None /\
  files (store_after (script submitted s)) !! handbook_path = None /\
  Forall (fun e => needs_vector_store e = false) (emitted (script submitted s)) /\
  (forall db, ~ In (Lib (BuildIndex db)) (emitted (script submitted s))).
Proof.
  intros Hcold Hmissing.
  destruct (startup_cold s Hcold)
    as [ (Hnone & (e & He) & Hneeds & Hindex & Hopen) | (text & vectors & Hfile & _) ];
    [ | cbv zeta in Hfile; congruence ].
  pose proof (startup_starting s) as [(_ & Hfiles & _) _].
  destruct (conversation_needs_startup submitted s e He) as (-> & -> & Hr).
  rewrite Hr. split; [ exists e; reflexivity | ].
  split.
  { intros Hin. specialize (Hopen Hmissing Hin). rewrite He in Hopen.
    injection Hopen as ->. reflexivity. }
  split; [ exact Hnone | ]. split; [ rewrite Hfiles; exact Hmissing | ].
  split; [ exact Hneeds | exact Hindex ].
Qed.

Lemma loading_in_startup submitted s e :
  loads_vector_store e = true ->
  In e (emitted (script submitted s)) -> In e (emitted (startup s)).
Proof.
  intros He Hin.
  destruct (script_after_startup submitted s) as (ev2 & Heq & Hevs & _).
  rewrite Heq in Hin. apply in_app_or in Hin.
  destruct Hin as [ Hin | Hin ]; [ exact Hin | ].
  rewrite Forall_forall in Hevs. apply list_elem_of_In in Hin.
  rewrite (conversation_no_loading _ _ (Hevs _ Hin)) in He. discriminate He.
Qed.

(** [X5] What is indexed is the handbook, without metadata.  An index the
    run builds is built in a run that started with an empty cache, over
    the chunks of the text of the handbook file; each of its documents
    holds one chunk and has no metadata, so its heading in the list of
    sources has neither a source nor a section: it is the heading of the
    two defaults, [Unknown] and [N/A]. *)
Theorem index_built_from_handbook submitted s db :
  In (Lib (BuildIndex db)) (emitted (script submitted s)) ->
  resource_cache s = None /\
  exists text vectors,
    files s !! handbook_path = Some text /\
    db = vectorstore (handbook_retriever text vectors) /\
    forall v doc,
      In (v, doc) (index db) ->
      In (page_content doc) (split_text (RecursiveCharacterTextSplitter 500 60) text) /\
      metadata doc = ∅ /\
      source_heading (metadata doc) = unknown_heading.
Proof.
  intros Hin. apply loading_in_startup in Hin; [ | reflexivity ].
  destruct (resource_cache s) as [ r0 | ] eqn:Hcache.
  - destruct (startup_warm s r0 Hcache) as [Hload _].
    destruct (no_loading_not_in _ (Lib (BuildIndex db)) Hload eq_refl Hin).
  - split; [ reflexivity | ].
    destruct (startup_cold s Hcache)
      as [ (_ & _ & _ & Hnone & _) | (text & vectors & Hfile & _ & _ & Hload) ];
      [ destruct (Hnone db Hin) | ].
    cbv zeta in *. exists text, vectors. split; [ exact Hfile | ].
    assert (In (Lib (BuildIndex db))
              (List.filter loads_vector_store (emitted (startup s))))
      as Hin' by (apply filter_In; split; [ exact Hin | reflexivity ]).
    rewrite Hload in Hin'. simpl in Hin'.
    destruct Hin' as [ H | [ H | [ H | [ H | [ H | [] ] ] ] ] ];
      try discriminate H.
    injection H as <-. split; [ reflexivity | ].
    intros v doc Hdoc. simpl in Hdoc.
    apply list_elem_of_In, elem_of_zip_r, list_elem_of_In, in_map_iff in Hdoc.
    destruct Hdoc as (chunk & <- & Hchunk).
    split; [ exact Hchunk | ]. split; reflexivity.
Qed.

End ColdCache.

(** ** The chat bubbles and the chat history (lines 115-146) *)

Section Page.

Context {ext : Externals}.

Lemma replay_turn_ok turn s :
  result (replay_turn turn s) = Ok tt ->
  emitted (replay_turn turn s) = turn_events turn /\
  store_after (replay_turn turn s) = s.
Proof.
  destruct turn as [user_msg bot_msg].
  set (P := fun r : Step unit =>
              result r = Ok tt ->
              emitted r = turn_events (user_msg, bot_msg) /\ store_after r = s).
  change (P (replay_turn (user_msg, bot_msg) s)).
  unfold replay_turn, chat_message. run_cbv.
  repeat run_head; subst P; cbv beta; cbn [emitted result store_after];
    intros Hok; try discriminate Hok.
  split; reflexivity.
Qed.

(** When the replay completes, it has drawn the turns of the history, in
    order. *)
Lemma replay_shown h s :
  result (for_each h replay_turn s) = Ok tt ->
  emitted (for_each h replay_turn s) = flat_map turn_events h.
Proof.
  induction h as [ | turn h IH ]; [ reflexivity | ].
  simpl for_each. rewrite bind_unfold.
  pose proof (replay_turn_ok turn s) as Hturn.
  destruct (result (replay_turn turn s)) as [ [] | e ];
    [ | intros Hok; discriminate Hok ].
  destruct (Hturn eq_refl) as [-> ->]. cbn [emitted result].
  intros Hok. rewrite (IH Hok). reflexivity.
Qed.

Lemma sources_no_chat docs s :
  List.filter is_chat (emitted (for_each docs show_source s)) = [].
Proof.
  induction docs as [ | doc docs IH ]; [ reflexivity | ].
  simpl for_each. unfold bind. rewrite show_source_run.
  destruct (ui_fault (st_markdown _ _)); [ reflexivity | ].
  destruct (ui_fault (st_code _ _ _)); [ reflexivity | ].
  destruct (for_each docs show_source s) as [ev s' r]. simpl in *. exact IH.
Qed.

(** A query that is handled without the error message has drawn its turn
    and appended it to the history. *)
Lemma handle_query_chat chain q s :
  result (handle_query chain q s) = Ok tt ->
  ~ In (UI (st_error generic_error_msg)) (emitted (handle_query chain q s)) ->
  exists resp,
    List.filter is_chat (emitted (handle_query chain q s)) = turn_events (q, resp) /\
    history (store_after (handle_query chain q s)) = history s ++ [(q, resp)].
Proof.
  set (P := fun r : Step unit =>
              result r = Ok tt ->
              ~ In (UI (st_error generic_error_msg)) (emitted r) ->
              exists resp,
                List.filter is_chat (emitted r) = turn_events (q, resp) /\
                history (store_after r) = history s ++ [(q, resp)]).
  change (P (handle_query chain q s)).
  unfold handle_query, guarded_answer, answer_query, call_chain, result_answer,
    chat_message, report_failure, append_chat_history, get_chat_history.
  run_cbv.
  repeat run_head; subst P; cbv beta; cbn [emitted result store_after];
    intros Hok Hno; try discriminate Hok;
    try solve [ exfalso; apply Hno; in_events ].
  match goal with
  | Hans : res_answer _ = Some ?resp,
    Hloop : for_each ?docs show_source s = _ |- _ =>
      exists resp;
      pose proof (sources_no_chat docs s) as Hsrc;
      rewrite Hloop in Hsrc; cbn [emitted] in Hsrc
  end.
  split.
  - simpl. rewrite !List.filter_app, Hsrc. reflexivity.
  - unfold history. cbn [session_state set_session_store].
    rewrite lookup_insert_eq.
    match goal with
    | Hh : session_state s !! "chat_history" = Some _ |- _ => rewrite Hh
    end.
    reflexivity.
Qed.

(** A conversation that ends normally and without the error message has
    drawn the chat bubbles of the history it leaves, and no others. *)
Lemma conversation_chat chain submitted s :
  result (conversation chain submitted s) = Ok tt ->
  ~ In (UI (st_error generic_error_msg)) (emitted (conversation chain submitted s)) ->
  List.filter is_chat (emitted (conversation chain submitted s))
  = flat_map turn_events (history (store_after (conversation chain submitted s))).
Proof.
  pose proof (handle_query_chat chain (default [] submitted) s) as Hq.
  revert Hq.
  set (P := fun r : Step unit =>
              result r = Ok tt ->
              ~ In (UI (st_error generic_error_msg)) (emitted r) ->
              List.filter is_chat (emitted r)
              = flat_map turn_events (history (store_after r))).
  intros Hq. change (P (conversation chain submitted s)).
  unfold conversation, replay_history, get_chat_history.
  run_cbv.
  run_head; [ run_head; run_head; [ run_head | ] | ].
  1, 2: match goal with
        | Hh : session_state ?st !! "chat_history" = Some ?h,
          Hloop : for_each ?h replay_turn ?st = mkStep ?drawn _ (Ok ?u) |- _ =>
            assert (history st = h) as Hs
              by (unfold history; rewrite Hh; reflexivity);
            pose proof (replay_shown h st) as Hreplay;
            rewrite Hloop in Hreplay; cbn [emitted result] in Hreplay;
            destruct u; specialize (Hreplay eq_refl); subst drawn
        end.
  - revert Hq.
    destruct (handle_query chain (default [] submitted) s) as [ev2 s2 r2].
    subst P. cbv beta. cbn [emitted result store_after].
    intros Hq Hok Hno.
    destruct Hq as (resp & Hchat & Hhist);
      [ exact Hok | intros Hin; apply Hno; in_events | ].
    rewrite List.filter_app, Hchat, Hhist, Hs, flat_map_app.
    simpl. f_equal.
    apply forallb_filter_id, forallb_forall. intros x Hx.
    match goal with
    | Hd : Forall _ _ |- _ =>
        rewrite Forall_forall in Hd; apply Hd, list_elem_of_In, Hx
    end.
  - subst P. cbv beta. cbn [emitted result store_after]. intros _ _.
    rewrite Hs. simpl. rewrite ?app_nil_r.
    apply forallb_filter_id, forallb_forall. intros x Hx.
    match goal with
    | Hd : Forall _ _ |- _ =>
        rewrite Forall_forall in Hd; apply Hd, list_elem_of_In, Hx
    end.
  - subst P. cbv beta. cbn [result]. intros Hok. discriminate Hok.
  - subst P. cbv beta. cbn [result]. intros Hok. discriminate Hok.
Qed.

End Page.

(** ** Runs and sessions *)

Section Session.

Context {ext : Externals}.

Lemma startup_no_chat sec e : startup_event sec e -> is_chat e = false.
Proof. intros H. destruct H; reflexivity. Qed.

Lemma startup_history s : history (store_after (startup s)) = history s.
Proof.
  pose proof (startup_starting s) as [(_ & _ & _ & Hsession) _].
  unfold history. destruct Hsession as [ -> | [Hnone ->] ]; [ reflexivity | ].
  rewrite lookup_insert_eq, Hnone. reflexivity.
Qed.

Lemma script_chat submitted s :
  result (script submitted s) = Ok tt ->
  ~ In (UI (st_error generic_error_msg)) (emitted (script submitted s)) ->
  List.filter is_chat (emitted (script submitted s))
  = flat_map turn_events (history (store_after (script submitted s))).
Proof.
  pose proof (script_run submitted s) as Hrun.
  pose proof (startup_starting s) as [_ Hevs].
  destruct (result (startup s)) as [ chain | e ].
  - cbv zeta in Hrun. rewrite Hrun. cbn [emitted store_after result].
    intros Hok Hno.
    rewrite List.filter_app, (filter_none _ _ _ (startup_no_chat _) Hevs).
    apply conversation_chat; [ exact Hok | ].
    intros Hin. apply Hno, in_or_app. right. exact Hin.
  - rewrite Hrun. intros Hok. discriminate Hok.
Qed.

(** A run leaves the history as it was, or appends the turn of the
    question that was asked. *)
Lemma script_history submitted s :
  history (store_after (script submitted s)) = history s \/
  truthy submitted = true /\
  exists resp,
    history (store_after (script submitted s))
    = history s ++ [(default [] submitted, resp)].
Proof.
  pose proof (script_run submitted s) as Hrun.
  pose proof (startup_history s) as Hstart.
  destruct (result (startup s)) as [ chain | e ].
  - cbv zeta in Hrun. rewrite Hrun. cbn [store_after].
    destruct (conversation_cases chain submitted (store_after (startup s)))
      as [ [ [Htruthy Hans] | [ [Hst _] | [Hst _] ] ] _ ].
    + right. split; [ exact Htruthy | ].
      destruct Hans as (res & resp & h & _ & _ & Hh & Hst & _).
      exists resp. rewrite Hst, <- Hstart. unfold history.
      cbn [session_state set_session_store].
      rewrite lookup_insert_eq, Hh. reflexivity.
    + left. rewrite Hst. exact Hstart.
    + left. rewrite Hst. exact Hstart.
  - left. rewrite Hrun. exact Hstart.
Qed.

(** Without a question the conversation only replays. *)
Lemma conversation_idle chain submitted s :
  truthy submitted = false ->
  store_after (conversation chain submitted s) = s /\
  Forall (fun e => is_chat e = true) (emitted (conversation chain submitted s)).
Proof.
  intros Hfalsy.
  set (P := fun r : Step unit =>
              store_after r = s /\ Forall (fun e => is_chat e = true) (emitted r)).
  change (P (conversation chain submitted s)).
  unfold conversation, replay_history, get_chat_history.
  run_cbv.
  repeat run_head; subst P; cbv beta; cbn [emitted store_after];
    (split; [ reflexivity | ]); simpl; rewrite ?app_nil_r;
    first [ assumption | constructor ].
Qed.

(** [X6] The page shows the conversation.  When a run ends normally and
    without the error message, the chat bubbles it has drawn are exactly
    the turns of the chat history it leaves, in order: the replayed turns,
    followed by the new question and its answer when one was asked.  And
    the history round-trips through the session state: the next run
    without a question, when it ends normally, draws the same bubbles. *)
Theorem page_shows_history submitted s :
  result (script submitted s) = Ok tt ->
  ~ In (UI (st_error generic_error_msg)) (emitted (script submitted s)) ->
  List.filter is_chat (emitted (script submitted s))
  = flat_map turn_events (history (store_after (script submitted s))) /\
  forall again,
    truthy again = false ->
    result (script again (store_after (script submitted s))) = Ok tt ->
    List.filter is_chat (emitted (script again (store_after (script submitted s))))
    = List.filter is_chat (emitted (script submitted s)).
Proof.
  intros Hok Hno. pose proof (script_chat submitted s Hok Hno) as Hchat.
  split; [ exact Hchat | ].
  intros again Hfalsy Hok'. rewrite Hchat.
  rewrite script_chat; [ | exact Hok' | ].
  - destruct (script_history again (store_after (script submitted s)))
      as [ -> | [Htruthy _] ]; [ reflexivity | congruence ].
  - intros Hin.
    destruct (script_after_startup again (store_after (script submitted s)))
      as (ev2 & Heq & Hevs & _).
    pose proof (startup_starting (store_after (script submitted s))) as [_ Hevs1].
    rewrite Heq in Hin. apply in_app_or in Hin.
    rewrite Forall_forall in Hevs, Hevs1.
    destruct Hin as [ Hin | Hin ]; apply list_elem_of_In in Hin.
    + exact (startup_no_generic_error _ (Hevs1 _ Hin)).
    + destruct (conversation_error_body _ _ (Hevs _ Hin)) as [_ Htruthy].
      congruence.
Qed.

(** [X7] No question, no answer.  When the chat input returns nothing, or
    the empty string, the run calls no chain, shows no thinking spinner, no
    source excerpt and no error message of the [try] statement, and leaves
    the chat history as it was: after the chat input it only replays the
    history. *)
Theorem no_query_no_answer submitted s :
  truthy submitted = false ->
  Forall (fun e => is_invocation e = false) (emitted (script submitted s)) /\
  ~ In (UI (st_spinner thinking_msg)) (emitted (script submitted s)) /\
  ~ In (UI (st_error generic_error_msg)) (emitted (script submitted s)) /\
  List.filter is_source_code (emitted (script submitted s)) = [] /\
  history (store_after (script submitted s)) = history s /\
  exists replayed,
    emitted (script submitted s) = emitted (startup s) ++ replayed /\
    Forall (fun e => is_chat e = true) replayed.
Proof.
  intros Hfalsy.
  assert (exists replayed,
            emitted (script submitted s) = emitted (startup s) ++ replayed /\
            Forall (fun e => is_chat e = true) replayed)
    as (replayed & Heq & Hchat).
  { pose proof (script_run submitted s) as Hrun.
    destruct (result (startup s)) as [ chain | e ].
    - cbv zeta in Hrun. rewrite Hrun. cbn [emitted].
      eexists. split; [ reflexivity | ].
      apply (conversation_idle chain submitted _ Hfalsy).
    - rewrite Hrun. exists []. split; [ symmetry; apply app_nil_r | constructor ]. }
  pose proof (startup_starting s) as [_ Hevs].
  rewrite Heq. split; [ | split; [ | split; [ | split; [ | split ] ] ] ].
  - apply Forall_app. split.
    + eapply Forall_impl; [ exact Hevs | ]. apply startup_no_invocation.
    + eapply Forall_impl; [ exact Hchat | ]. apply chat_no_invocation.
  - intros Hin. apply in_app_or in Hin. destruct Hin as [ Hin | Hin ].
    + rewrite Forall_forall in Hevs. apply list_elem_of_In in Hin.
      specialize (Hevs _ Hin). inversion Hevs.
    + revert Hin. eapply drawn_not_in; [ | exact Hchat ]. reflexivity.
  - intros Hin. apply in_app_or in Hin. destruct Hin as [ Hin | Hin ].
    + rewrite Forall_forall in Hevs. apply list_elem_of_In in Hin.
      exact (startup_no_generic_error _ (Hevs _ Hin)).
    + revert Hin. eapply drawn_not_in; [ | exact Hchat ]. reflexivity.
  - rewrite List.filter_app, (filter_none _ _ _ (startup_no_source_code _) Hevs),
      (drawn_filter is_chat _ _ chat_no_source_code Hchat).
    reflexivity.
  - destruct (script_history submitted s) as [ H | [Htruthy _] ];
      [ exact H | congruence ].
  - exists replayed. split; [ reflexivity | exact Hchat ].
Qed.

(** [X8] The chat history only grows, by the questions asked.  Over a
    session, whatever the runs do and however they end, the history at the
    end is the history at the start followed by new turns; the questions
    of the new turns are among the texts the chat input returned, in the
    order they were submitted, each recorded at most once.  No turn is
    ever removed, changed or reordered. *)
Theorem history_grows_by_appending inputs s :
  exists turns,
    history (session inputs s) = history s ++ turns /\
    sublist (map (fun turn => Some (fst turn)) turns) inputs.
Proof.
  revert s. induction inputs as [ | submitted inputs IH ]; intros s.
  - exists []. split; [ symmetry; apply app_nil_r | constructor ].
  - simpl session.
    destruct (IH (store_after (script submitted s))) as (turns & Hturns & Hsub).
    destruct (script_history submitted s) as [ Hsame | (Htruthy & resp & Hnew) ].
    + exists turns. rewrite Hturns, Hsame. split; [ reflexivity | ].
      apply sublist_cons. exact Hsub.
    + exists ((default [] submitted, resp) :: turns).
      rewrite Hturns, Hnew, <- app_assoc. split; [ reflexivity | ].
      simpl. rewrite (truthy_default _ Htruthy) at 2.
      apply sublist_skip. exact Hsub.
Qed.

End Session.

Section BuiltOnce.

Context {ext : Externals}.

Lemma filter_index_loads evs :
  List.filter is_index_build (List.filter loads_vector_store evs)
  = List.filter is_index_build evs.
Proof.
  induction evs as [ | e evs IH ]; [ reflexivity | ].
  destruct e as [ c | k v | path | [] ]; simpl; rewrite IH; reflexivity.
Qed.

Lemma no_loading_no_index evs :
  Forall (fun e => loads_vector_store e = false) evs ->
  List.filter is_index_build evs = [].
Proof.
  intros Hall. rewrite <- filter_index_loads.
  rewrite (filter_none loads_vector_store _ evs (fun e H => H) Hall).
  reflexivity.
Qed.

Lemma no_index_in evs :
  (forall db, ~ In (Lib (BuildIndex db)) evs) ->
  List.filter is_index_build evs = [].
Proof.
  induction evs as [ | e evs IH ]; intros Hindex; [ reflexivity | ].
  simpl. destruct (is_index_build e) eqn:He.
  - destruct e as [ c | k v | path | [] ]; try discriminate He.
    destruct (Hindex db). left. reflexivity.
  - apply IH. intros db Hin. apply (Hindex db). right. exact Hin.
Qed.

Lemma script_warm submitted s r0 :
  resource_cache s = Some r0 ->
  Forall (fun e => loads_vector_store e = false) (emitted (script submitted s)) /\
  resource_cache (store_after (script submitted s)) = Some r0.
Proof.
  intros Hwarm.
  destruct (startup_warm s r0 Hwarm) as (Hload & _ & Hcache).
  destruct (script_after_startup submitted s)
    as (ev2 & Heq & Hevs & (_ & _ & _ & Hsame & _) & _).
  rewrite Heq. split; [ | congruence ].
  apply Forall_app. split; [ exact Hload | ].
  eapply Forall_impl; [ exact Hevs | ]. apply conversation_no_loading.
Qed.

Lemma script_cold submitted s :
  resource_cache s = None ->
  resource_cache (store_after (script submitted s)) = None /\
  List.filter is_index_build (emitted (script submitted s)) = []
  \/
  resource_cache (store_after (script submitted s)) <> None /\
  length (List.filter is_index_build (emitted (script submitted s))) = 1.
Proof.
  intros Hcold.
  destruct (script_after_startup submitted s)
    as (ev2 & Heq & Hevs & (_ & _ & _ & Hsame & _) & _).
  assert (List.filter is_index_build ev2 = []) as Hev2.
  { apply no_loading_no_index. eapply Forall_impl; [ exact Hevs | ].
    apply conversation_no_loading. }
  rewrite Heq, List.filter_app, Hev2, app_nil_r, Hsame.
  destruct (startup_cold s Hcold)
    as [ (Hnone & _ & _ & Hindex & _) | (text & vectors & _ & _ & Hcache & Hload) ].
  - left. split; [ exact Hnone | apply no_index_in, Hindex ].
  - right. cbv zeta in *. split; [ congruence | ].
    rewrite <- filter_index_loads, Hload. reflexivity.
Qed.

Lemma warm_session inputs s r0 :
  resource_cache s = Some r0 ->
  List.filter is_index_build (session_events inputs s) = [].
Proof.
  revert s. induction inputs as [ | submitted inputs IH ]; intros s Hwarm;
    [ reflexivity | ].
  destruct (script_warm submitted s r0 Hwarm) as [Hload Hcache].
  simpl session_events.
  rewrite List.filter_app, (no_loading_no_index _ Hload), (IH _ Hcache).
  reflexivity.
Qed.

(** [X9] The index is built at most once in a session.  Over the runs of
    a session, however many there are and however they end, the vector
    index is built at most once; and never, when the session starts with
    a retriever in the resource cache.  A run that fails before the index
    is cached may be followed by a run that builds it. *)
Theorem index_built_at_most_once inputs s :
  length (List.filter is_index_build (session_events inputs s)) <= 1 /\
  (resource_cache s <> None ->
   List.filter is_index_build (session_events inputs s) = []).
Proof.
  split.
  - revert s. induction inputs as [ | submitted inputs IH ]; intros s;
      [ simpl; lia | ].
    simpl session_events. rewrite List.filter_app, length_app.
    destruct (resource_cache s) as [ r0 | ] eqn:Hcache.
    + destruct (script_warm submitted s r0 Hcache) as [Hload Hwarm].
      rewrite (no_loading_no_index _ Hload), (warm_session _ _ _ Hwarm).
      simpl. lia.
    + destruct (script_cold submitted s Hcache) as [ [Hnone ->] | [Hsome ->] ].
      * specialize (IH (store_after (script submitted s))). simpl. lia.
      * destruct (resource_cache (store_after (script submitted s)))
          as [ r | ] eqn:Hr; [ | destruct (Hsome eq_refl) ].
        rewrite (warm_session _ _ _ Hr). simpl. lia.
  - intros Hwarm. destruct (resource_cache s) as [ r0 | ] eqn:Hcache;
      [ | destruct (Hwarm eq_refl) ].
    exact (warm_session _ _ _ Hcache).
Qed.

End BuiltOnce.

(** ** The excerpt of a source document (line 144) *)

Section Excerpt.

(** [X10] What the excerpt of a source document is.  The page content
    is some whitespace, a body, and some whitespace again, where the body
    neither starts nor ends with whitespace; the excerpt is the first 700
    code points of the body, followed by three dots.  So whitespace at
    either end is never shown and never counted, whitespace inside is
    kept, and a content of whitespace only, or the empty content, is shown
    as the three dots alone. *)
Theorem source_excerpt_of_content (doc : Document) :
  (exists before body after,
     page_content doc = before ++ body ++ after /\
     all_space before /\ all_space after /\
     (forall c rest, body = c :: rest -> py_isspace c = false) /\
     (forall rest c, body = rest ++ [c] -> py_isspace c = false) /\
     source_excerpt doc = take 700 body ++ py "...") /\
  (all_space (page_content doc) -> source_excerpt doc = py "...").
Proof.
  split.
  - destruct (strip_split (page_content doc)) as (before & after & Heq & Hb & Ha).
    exists before, (strip (page_content doc)), after.
    split; [ exact Heq | ]. split; [ exact Hb | ]. split; [ exact Ha | ].
    split; [ apply strip_head | ]. split; [ apply strip_last | reflexivity ].
  - intros Hspace. unfold source_excerpt. rewrite (strip_all_space _ Hspace).
    reflexivity.
Qed.

End Excerpt.

(** ** What has been drawn when the chain is called (lines 121-134) *)

Section BeforeCall.

Context {ext : Externals}.

(** A list with one chain call splits at that call in one way only. *)
Lemma invocation_split a x b pre y post :
  a ++ x :: b = pre ++ y :: post ->
  List.filter is_invocation a = [] ->
  List.filter is_invocation b = [] ->
  is_invocation y = true ->
  pre = a /\ y = x /\ post = b.
Proof.
  revert pre. induction a as [ | a0 a IH ]; intros pre Heq Ha Hb Hy.
  - destruct pre as [ | p pre ]; simpl in Heq.
    + injection Heq as -> ->. repeat split.
    + injection Heq as -> ->.
      rewrite List.filter_app in Hb. simpl in Hb. rewrite Hy in Hb.
      destruct (List.filter is_invocation pre); discriminate Hb.
  - simpl in Ha. destruct (is_invocation a0) eqn:Ha0; [ discriminate Ha | ].
    destruct pre as [ | p pre ]; simpl in Heq.
    + injection Heq as -> _. congruence.
    + injection Heq as -> Heq.
      destruct (IH pre Heq Ha Hb Hy) as (-> & -> & ->). repeat split.
Qed.

Lemma turn_events_chat h :
  Forall (fun e => is_chat e = true) (flat_map turn_events h).
Proof.
  induction h as [ | turn h IH ]; [ constructor | ].
  simpl. repeat (constructor; [ reflexivity | ]). exact IH.
Qed.

Lemma handle_query_call chain q s :
  List.filter is_invocation (emitted (handle_query chain q s)) = [] \/
  exists rest,
    emitted (handle_query chain q s)
    = [ UI (st_chat_message (py "user") person);
        UI (st_markdown (ChatMessage (py "user") person) q);
        UI (st_spinner thinking_msg);
        Lib (InvokeChain chain q) ] ++ rest /\
    List.filter is_invocation rest = [].
Proof.
  set (P := fun r : Step unit =>
    List.filter is_invocation (emitted r) = [] \/
    exists rest,
      emitted r
      = [ UI (st_chat_message (py "user") person);
          UI (st_markdown (ChatMessage (py "user") person) q);
          UI (st_spinner thinking_msg);
          Lib (InvokeChain chain q) ] ++ rest /\
      List.filter is_invocation rest = []).
  change (P (handle_query chain q s)).
  unfold handle_query, guarded_answer, answer_query, call_chain, result_answer,
    chat_message, report_failure, append_chat_history, get_chat_history.
  run_cbv.
  repeat run_head; subst P; cbv beta; cbn [emitted];
    first [ left; reflexivity
          | right; eexists; split; [ simpl; reflexivity | count_events; reflexivity ] ].
Qed.

Lemma conversation_call chain submitted s :
  List.filter is_invocation (emitted (conversation chain submitted s)) = [] \/
  exists rest,
    emitted (conversation chain submitted s)
    = (flat_map turn_events (history s)
       ++ [ UI (st_chat_message (py "user") person);
            UI (st_markdown (ChatMessage (py "user") person) (default [] submitted));
            UI (st_spinner thinking_msg) ])
      ++ Lib (InvokeChain chain (default [] submitted)) :: rest /\
    List.filter is_invocation rest = [].
Proof.
  pose proof (handle_query_call chain (default [] submitted) s) as Hq.
  revert Hq.
  set (P := fun r : Step unit =>
    List.filter is_invocation (emitted r) = [] \/
    exists rest,
      emitted r
      = (flat_map turn_events (history s)
         ++ [ UI (st_chat_message (py "user") person);
              UI (st_markdown (ChatMessage (py "user") person) (default [] submitted));
              UI (st_spinner thinking_msg) ])
        ++ Lib (InvokeChain chain (default [] submitted)) :: rest /\
      List.filter is_invocation rest = []).
  intros Hq. change (P (conversation chain submitted s)).
  unfold conversation, replay_history, get_chat_history.
  run_cbv.
  run_head; [ run_head; run_head; [ run_head | ] | ].
  2, 3, 4: subst P; cbv beta; cbn [emitted]; left; count_events; reflexivity.
  match goal with
  | Hh : session_state ?st !! "chat_history" = Some ?h,
    Hloop : for_each ?h replay_turn ?st = mkStep ?drawn _ (Ok ?u) |- _ =>
      assert (history st = h) as Hs
        by (unfold history; rewrite Hh; reflexivity);
      pose proof (replay_shown h st) as Hreplay;
      rewrite Hloop in Hreplay; cbn [emitted result] in Hreplay;
      destruct u; specialize (Hreplay eq_refl); subst drawn
  end.
  revert Hq.
  destruct (handle_query chain (default [] submitted) s) as [ev2 s2 r2].
  subst P. cbv beta. cbn [emitted].
  intros [ Hnone | (rest & -> & Hrest) ].
  - left. count_events. exact Hnone.
  - right. exists rest. split; [ | exact Hrest ].
    rewrite Hs. simpl. rewrite <- !app_assoc. reflexivity.
Qed.

(** [X12] What has been drawn when the chain is called.  The chain is
    called only once the page is complete: the calls of a run before the
    chain call are the startup up to the chat input, the replay of the
    whole chat history, the bubble with the question, and the thinking
    spinner, in this order and nothing else.  So the question is on the
    page whether or not the chain answers; and no chain call follows. *)
Theorem question_echoed_before_call submitted s pre chain q post :
  emitted (script submitted s) = pre ++ Lib (InvokeChain chain q) :: post ->
  pre = emitted (startup s)
        ++ flat_map turn_events (history s)
        ++ [ UI (st_chat_message (py "user") person);
             UI (st_markdown (ChatMessage (py "user") person) q);
             UI (st_spinner thinking_msg) ] /\
  Forall (fun e => is_invocation e = false) post.
Proof.
  intros Heq.
  pose proof (script_run submitted s) as Hrun.
  pose proof (startup_starting s) as [_ Hevs].
  pose proof (startup_history s) as Hhist.
  assert (List.filter is_invocation (emitted (startup s)) = []) as Hstart
    by exact (filter_none _ _ _ (startup_no_invocation _) Hevs).
  assert (List.filter is_invocation (pre ++ Lib (InvokeChain chain q) :: post) <> [])
    as Hcalled.
  { rewrite List.filter_app. simpl.
    destruct (List.filter is_invocation pre); discriminate. }
  rewrite <- Heq in Hcalled.
  destruct (result (startup s)) as [ chain0 | e ].
  - cbv zeta in Hrun. rewrite Hrun in Heq, Hcalled. cbn [emitted] in Heq, Hcalled.
    destruct (conversation_call chain0 submitted (store_after (startup s)))
      as [ Hnone | (rest & Hconv & Hrest) ].
    + rewrite List.filter_app, Hstart, Hnone in Hcalled. destruct (Hcalled eq_refl).
    + rewrite Hconv, Hhist, app_assoc in Heq.
      apply invocation_split in Heq; [ | | exact Hrest | reflexivity ].
      * destruct Heq as (-> & [= -> ->] & ->).
        split; [ reflexivity | ].
        clear -Hrest. induction rest as [ | e rest IH ]; [ constructor | ].
        simpl in Hrest. destruct (is_invocation e) eqn:He; [ discriminate Hrest | ].
        constructor; [ exact He | exact (IH Hrest) ].
      * rewrite !List.filter_app, Hstart. simpl.
        rewrite app_nil_r.
        apply (filter_none is_invocation (fun e => is_chat e = true) _ chat_no_invocation).
        apply turn_events_chat.
  - rewrite Hrun in Hcalled. cbn [emitted] in Hcalled. destruct (Hcalled Hstart).
Qed.

End BeforeCall.

(** ** What a session leaves alone *)

Section SessionFrame.

Context {ext : Externals}.

Lemma script_frame submitted s :
  secret_entries (secrets_file (store_after (script submitted s)))
  = secret_entries (secrets_file s) /\
  files (store_after (script submitted s)) = files s /\
  environ_kept_or_secret (secret_entries (secrets_file s))
    (environ s) (environ (store_after (script submitted s))) /\
  (forall k, k <> "chat_history" ->
     session_state (store_after (script submitted s)) !! k = session_state s !! k).
Proof.
  pose proof (startup_starting s) as [Hframe _].
  pose proof (startup_frame_entries _ _ Hframe) as Hentries.
  destruct Hframe as (_ & Hfiles & Henv & Hsess).
  destruct (script_after_startup submitted s)
    as (_ & _ & _ & (Hsec2 & Hfiles2 & Henv2 & _ & Hsess2) & _).
  split; [ rewrite Hsec2; exact Hentries | ]. split; [ congruence | ]. split.
  - rewrite Henv2. exact Henv.
  - intros k Hk. rewrite Hsess2 by exact Hk.
    destruct Hsess as [ -> | [_ ->] ]; [ reflexivity | ].
    apply lookup_insert_ne. congruence.
Qed.

(** [X11] What a session leaves alone.  Over the runs of a session,
    however they end, the entries of the secrets and the files are never
    changed; every variable of the process environment is as at the start,
    or holds the text of a string or number of the top level of the
    secrets under its name, as the reading of the secrets and line 21
    write it; and no key of the session state but [chat_history] is
    touched. *)
Theorem session_frame inputs s :
  secret_entries (secrets_file (session inputs s)) = secret_entries (secrets_file s) /\
  secrets (session inputs s) = secrets s /\
  files (session inputs s) = files s /\
  environ_kept_or_secret (secret_entries (secrets_file s))
    (environ s) (environ (session inputs s)) /\
  (forall k, k <> "chat_history" ->
     session_state (session inputs s) !! k = session_state s !! k).
Proof.
  assert (forall s,
    secret_entries (secrets_file (session inputs s)) = secret_entries (secrets_file s) /\
    files (session inputs s) = files s /\
    environ_kept_or_secret (secret_entries (secrets_file s))
      (environ s) (environ (session inputs s)) /\
    (forall k, k <> "chat_history" ->
       session_state (session inputs s) !! k = session_state s !! k)) as Hall.
  { induction inputs as [ | submitted inputs IH ]; intros s0.
    - simpl. repeat split; try reflexivity. apply environ_kept_refl.
    - simpl session.
      destruct (script_frame submitted s0) as (Hsec & Hfiles & Henv & Hsess).
      destruct (IH (store_after (script submitted s0)))
        as (Hsec' & Hfiles' & Henv' & Hsess').
      split; [ congruence | ]. split; [ congruence | ]. split.
      + rewrite Hsec in Henv'. eapply environ_kept_trans; eassumption.
      + intros k Hk. rewrite Hsess' by exact Hk. apply Hsess, Hk. }
  destruct (Hall s) as (Hsec & Hfiles & Henv & Hsess).
  split; [ exact Hsec | ]. split; [ unfold secrets; rewrite Hsec; reflexivity | ].
  split; [ exact Hfiles | ]. split; [ exact Henv | exact Hsess ].
Qed.

End SessionFrame.

(** ** The further properties on the example session *)

Lemma chain_call_configured_witness :
  exists chain key retriever,
    In (Lib (InvokeChain chain Demo.question1)) (emitted Demo.first_turn) /\
    secrets Demo.opened !! "GOOGLE_API_KEY" = Some key /\
    resource_cache (store_after Demo.first_turn) = Some retriever /\
    chain = configured_chain (Some key) retriever.
Proof.
  assert (exists chain, In (Lib (InvokeChain chain Demo.question1))
                           (emitted Demo.first_turn)) as [chain Hin].
  { eexists. vm_compute. repeat first [ left; reflexivity | right ]. }
  destruct (@chain_call_configured Demo.healthy (Some Demo.question1) Demo.opened
              chain Demo.question1 Hin)
    as (key & retriever & Hkey & Hcache & Hchain & _).
  exists chain, key, retriever.
  split; [ exact Hin | ]. split; [ exact Hkey | ]. split; [ exact Hcache | exact Hchain ].
Defined.

Lemma warm_cache_skips_loading_witness :
  exists r0,
    resource_cache Demo.opened = Some r0 /\
    Forall (fun e => loads_vector_store e = false) (emitted Demo.first_turn) /\
    resource_cache (store_after Demo.first_turn) = Some r0.
Proof.
  assert (exists r0, resource_cache Demo.opened = Some r0) as [r0 Hwarm].
  { eexists. vm_compute. reflexivity. }
  exists r0. split; [ exact Hwarm | ].
  destruct (@warm_cache_skips_loading Demo.healthy (Some Demo.question1)
              Demo.opened r0 Hwarm) as (Hload & _ & Hcache & _).
  split; [ exact Hload | exact Hcache ].
Defined.

Lemma cold_cache_builds_vector_store_witness :
  resource_cache Demo.fresh = None /\
  exists vectors,
    resource_cache (store_after Demo.visit)
    = Some (@handbook_retriever Demo.healthy Demo.handbook vectors).
Proof.
  split; [ reflexivity | ].
  destruct (@cold_cache_builds_vector_store Demo.healthy None Demo.fresh eq_refl)
    as [ (Hnone & _) | (text & vectors & Hfile & _ & Hcache & _) ].
  - vm_compute in Hnone. discriminate Hnone.
  - vm_compute in Hfile. injection Hfile as <-.
    exists vectors. exact Hcache.
Defined.

Lemma missing_handbook_file_witness :
  result (@script Demo.healthy None Demo.no_file)
  = Raised (FileNotFoundError handbook_path) /\
  resource_cache (store_after (@script Demo.healthy None Demo.no_file)) = None.
Proof.
  destruct (@missing_handbook_file Demo.healthy None Demo.no_file eq_refl eq_refl)
    as (_ & Hopen & Hcache & _).
  split; [ | exact Hcache ].
  apply Hopen. vm_compute. repeat first [ left; reflexivity | right ].
Defined.

Lemma index_built_from_handbook_witness :
  exists db,
    In (Lib (BuildIndex db)) (emitted Demo.visit) /\
    forall v doc,
      In (v, doc) (index db) ->
      metadata doc = ∅ /\ source_heading (metadata doc) = unknown_heading.
Proof.
  assert (exists db, In (Lib (BuildIndex db)) (emitted Demo.visit)) as [db Hin].
  { eexists. vm_compute. repeat first [ left; reflexivity | right ]. }
  exists db. split; [ exact Hin | ].
  intros v doc Hdoc.
  destruct (@index_built_from_handbook Demo.healthy None Demo.fresh db Hin)
    as (_ & text & vectors & _ & _ & Hdocs).
  destruct (Hdocs v doc Hdoc) as (_ & Hmeta & Hheading).
  split; [ exact Hmeta | exact Hheading ].
Defined.

Lemma page_shows_history_witness :
  List.filter is_chat (emitted Demo.first_turn)
  = turn_events (Demo.question1, py "About " ++ Demo.question1).
Proof.
  destruct (@page_shows_history Demo.healthy (Some Demo.question1) Demo.opened)
    as [Hchat _].
  - reflexivity.
  - intros Hin. vm_compute in Hin.
    repeat (destruct Hin as [ Hin | Hin ]; [ discriminate Hin | ]). exact Hin.
  - etransitivity; [ exact Hchat | vm_compute; reflexivity ].
Defined.

Lemma no_query_no_answer_witness :
  Forall (fun e => is_invocation e = false) (emitted Demo.visit) /\
  history (store_after Demo.visit) = history Demo.fresh.
Proof.
  destruct (@no_query_no_answer Demo.healthy None Demo.fresh eq_refl)
    as (Hcalls & _ & _ & _ & Hhistory & _).
  split; [ exact Hcalls | exact Hhistory ].
Defined.

Lemma question_echoed_before_call_witness :
  exists chain pre post,
    emitted Demo.first_turn
    = pre ++ Lib (InvokeChain chain Demo.question1) :: post /\
    Forall (fun e => is_invocation e = false) post.
Proof.
  assert (exists chain pre post,
            emitted Demo.first_turn
            = pre ++ Lib (InvokeChain chain Demo.question1) :: post)
    as (chain & pre & post & Heq).
  { eexists.
    exists (firstn 9 (emitted Demo.first_turn)), (skipn 10 (emitted Demo.first_turn)).
    vm_compute. reflexivity. }
  exists chain, pre, post. split; [ exact Heq | ].
  exact (proj2 (@question_echoed_before_call Demo.healthy (Some Demo.question1)
                  Demo.opened pre chain Demo.question1 post Heq)).
Defined.
